(** * Employee Management API: a shallow embedding of [main.py]

    The service is a FastAPI application over one SQLite table, [employees].
    This development embeds the request handlers of [main.py] as functions
    over an explicit table state and proves the properties its specification
    states about them.

    Conventions of the embedding.
    - A Python [str] is a [string]; a character is a code point below 256.
    - A Python [int] and an SQLite INTEGER are a [Z]; values are taken to fit
      the 64-bit column.
    - The table is the list of its rows in rowid order, which is the order in
      which SQLite scans it for every query of [main.py].
    - A handler is a function from the table to an outcome and a table: the
      outcome is the returned value or the raised [HTTPException]. *)

From Stdlib Require Import ZArith List String Ascii Bool Lia DecimalString.
From Stdlib Require Import DecimalZ Sorted.
Import ListNotations.

Local Open Scope string_scope.
Local Open Scope Z_scope.

(* ================================================================== *)
(** ** Python values *)

Module Py.

(** [bool(x)] as the [if x:] tests of the handlers use it. *)
Class Truthy (A : Type) := truthy : A -> bool.

#[global] Instance str_truthy : Truthy string :=
  fun s => negb (s =? "")%string.

#[global] Instance int_truthy : Truthy Z :=
  fun n => negb (n =? 0).

(** [Optional[T]]: [None] is falsy, a value is as truthy as it is. *)
#[global] Instance optional_truthy {A} `{Truthy A} : Truthy (option A) :=
  fun o => match o with Some a => truthy a | None => false end.

(** [str.isspace] on one character: the code points below 256 that
    [str.strip()] removes. *)
Definition isspace (c : ascii) : bool :=
  let n := N_of_ascii c in
  ((9 <=? n) && (n <=? 13) || (28 <=? n) && (n <=? 32)
   || (n =? 133) || (n =? 160))%N.

Fixpoint lstrip (s : string) : string :=
  match s with
  | EmptyString => EmptyString
  | String c s' => if isspace c then lstrip s' else s
  end.

Fixpoint rstrip (s : string) : string :=
  match s with
  | EmptyString => EmptyString
  | String c s' =>
      match rstrip s' with
      | EmptyString => if isspace c then EmptyString else String c EmptyString
      | t => String c t
      end
  end.

(** [s.strip()] *)
Definition strip (s : string) : string := rstrip (lstrip s).

(** [str(n)] for an [int]. *)
Definition str_of_int (n : Z) : string := NilZero.string_of_int (Z.to_int n).

(** [c in s] for a character [c]. *)
Fixpoint char_in (c : ascii) (s : string) : bool :=
  match s with
  | EmptyString => false
  | String d s' => (c =? d)%char || char_in c s'
  end.

(** [len(s)] *)
Definition len (s : string) : Z := Z.of_nat (String.length s).

End Py.

(* ================================================================== *)
(** ** SQLite text operators

    SQLAlchemy compiles [col.contains(x)] to [col LIKE '%' || x || '%'] and,
    for SQLite, [col.ilike(p)] to [lower(col) LIKE lower(p)].  SQLite's LIKE
    takes [%] for any run of characters and [_] for any single character, and
    compares the other characters without regard to ASCII letter case; its
    [lower] folds ASCII letters only.  No escape character is given by the
    queries of [main.py]. *)

Module Sqlite.

Definition lower_char (c : ascii) : ascii :=
  let n := N_of_ascii c in
  if ((65 <=? n) && (n <=? 90))%N then ascii_of_N (n + 32) else c.

(** [lower(s)] *)
Fixpoint lower (s : string) : string :=
  match s with
  | EmptyString => EmptyString
  | String c s' => String (lower_char c) (lower s')
  end.

(** [s LIKE p], the pattern first. *)
Fixpoint like (p : string) (s : string) {struct p} : bool :=
  match p with
  | EmptyString => match s with EmptyString => true | _ => false end
  | String c p' =>
      if (c =? "%")%char then
        (fix any (s : string) : bool :=
           like p' s ||
           match s with
           | EmptyString => false
           | String _ s' => any s'
           end) s
      else if (c =? "_")%char then
        match s with
        | EmptyString => false
        | String _ s' => like p' s'
        end
      else
        match s with
        | EmptyString => false
        | String d s' => (lower_char c =? lower_char d)%char && like p' s'
        end
  end.

End Sqlite.

(* ================================================================== *)
(** ** Data model *)

(** [class EmployeeORM(Base)]: a row of the table [employees]. *)
Module EmployeeORM.
Record t : Type := mk
  { id : Z;
    name : string;
    email : string;
    age : Z;
    department : string }.

Definition set_name (v : string) (e : t) : t :=
  mk (id e) v (email e) (age e) (department e).
Definition set_email (v : string) (e : t) : t :=
  mk (id e) (name e) v (age e) (department e).
Definition set_age (v : Z) (e : t) : t :=
  mk (id e) (name e) (email e) v (department e).
Definition set_department (v : string) (e : t) : t :=
  mk (id e) (name e) (email e) (age e) v.
End EmployeeORM.

(** [class EmployeeCreate(BaseModel)]: the body of a create request. *)
Module EmployeeCreate.
Record t : Type := mk
  { name : string;
    email : string;
    age : Z;
    department : string }.
End EmployeeCreate.

(** [class EmployeeUpdate(BaseModel)]: the body of an update request; an
    omitted field and a JSON null are both [None]. *)
Module EmployeeUpdate.
Record t : Type := mk
  { name : option string;
    email : option string;
    age : option Z;
    department : option string }.
End EmployeeUpdate.

(** The table [employees], rows in rowid order. *)
Definition Table : Type := list EmployeeORM.t.

(* ================================================================== *)
(** ** Validation of request bodies *)

Module Pydantic.

(** The text after the first [@] of [s], if there is one after a non-empty
    local part. *)
Fixpoint domain_of (local_seen : bool) (s : string) : option string :=
  match s with
  | EmptyString => None
  | String c s' =>
      if (c =? "@")%char then (if local_seen then Some s' else None)
      else domain_of true s'
  end.

(** Modelled from the spec: [EmailStr] is a type of the pydantic library,
    whose code is not part of the repository.  The specification gives its
    rule as: local-part, an at sign, a domain containing at least one dot. *)
Definition EmailStr (s : string) : bool :=
  match domain_of false s with
  | Some d => Py.char_in "." d && negb (Py.char_in "@" d)
  | None => false
  end.

(** The [Field] constraints of [EmployeeCreate]: [min_length=1] on [name]
    and [department], [ge=18, le=100] on [age], [EmailStr] on [email]. *)
Definition validate_create (p : EmployeeCreate.t) : bool :=
  (1 <=? Py.len (EmployeeCreate.name p))
  && EmailStr (EmployeeCreate.email p)
  && ((18 <=? EmployeeCreate.age p) && (EmployeeCreate.age p <=? 100))
  && (1 <=? Py.len (EmployeeCreate.department p)).

(** The constraints of [EmployeeUpdate]: every field is optional and only
    [email] carries a constraint, [EmailStr], when it is given. *)
Definition validate_update (p : EmployeeUpdate.t) : bool :=
  match EmployeeUpdate.email p with
  | Some e => EmailStr e
  | None => true
  end.

End Pydantic.

(* ================================================================== *)
(** ** Handlers as state-and-exception computations *)

(** [HTTPException(status_code=..., detail=...)] *)
Record HTTPException : Type := mkHTTPException
  { status_code : Z;
    detail : string }.

Inductive outcome (A : Type) : Type :=
| Returned (a : A)
| Raised (e : HTTPException).
Arguments Returned {A} a.
Arguments Raised {A} e.

(** A handler body runs against the table and leaves a table behind. *)
Definition Handler (A : Type) : Type := Table -> outcome A * Table.

Definition ret {A} (a : A) : Handler A := fun t => (Returned a, t).

Definition raise {A} (e : HTTPException) : Handler A := fun t => (Raised e, t).

Definition bind {A B} (m : Handler A) (k : A -> Handler B) : Handler B :=
  fun t =>
    match m t with
    | (Returned a, t') => k a t'
    | (Raised e, t') => (Raised e, t')
    end.

Notation "x <- m ;; k" := (bind m (fun x => k))
  (at level 61, m at next level, right associativity).
Notation "m ;;; k" := (bind m (fun _ => k))
  (at level 61, right associativity).

(** The SQLAlchemy session of one request. *)
Module Session.

(** A query under construction is the function that computes its rows. *)
Definition Query : Type := Table -> list EmployeeORM.t.

(** [db.query(EmployeeORM)] *)
Definition query : Query := fun t => t.

(** [q.filter(cond)] *)
Definition filter (cond : EmployeeORM.t -> bool) (q : Query) : Query :=
  fun t => List.filter cond (q t).

(** [q.offset(n)] *)
Definition offset (n : Z) (q : Query) : Query :=
  fun t => skipn (Z.to_nat n) (q t).

(** [q.limit(n)] *)
Definition limit (n : Z) (q : Query) : Query :=
  fun t => firstn (Z.to_nat n) (q t).

(** [q.first()] *)
Definition first (q : Query) : Handler (option EmployeeORM.t) :=
  fun t => (Returned (hd_error (q t)), t).

(** [q.all()] *)
Definition all (q : Query) : Handler (list EmployeeORM.t) :=
  fun t => (Returned (q t), t).

(** The rowid SQLite gives to an inserted row of an INTEGER PRIMARY KEY
    table: 1 in an empty table, else one more than the largest. *)
Definition next_rowid (t : Table) : Z :=
  match map EmployeeORM.id t with
  | [] => 1
  | i :: l => fold_right Z.max i l + 1
  end.

(** [db.add(emp); db.commit()] for a new object: the INSERT.  The object
    comes back with its primary key. *)
Definition add_commit (name email : string) (age : Z) (department : string)
  : Handler EmployeeORM.t :=
  fun t =>
    let emp := EmployeeORM.mk (next_rowid t) name email age department in
    (Returned emp, (t ++ [emp])%list).

(** [db.commit()] with the loaded object [emp] modified: the UPDATE of the
    row with its primary key. *)
Definition commit (emp : EmployeeORM.t) : Handler unit :=
  fun t =>
    (Returned tt,
     map (fun r => if EmployeeORM.id r =? EmployeeORM.id emp then emp else r) t).

(** [db.delete(emp); db.commit()]: the DELETE of the row with its primary
    key. *)
Definition delete_commit (emp : EmployeeORM.t) : Handler unit :=
  fun t =>
    (Returned tt,
     List.filter (fun r => negb (EmployeeORM.id r =? EmployeeORM.id emp)) t).

(** [db.refresh(emp)]: the object reloaded from its row. *)
Definition refresh (emp : EmployeeORM.t) : Handler EmployeeORM.t :=
  fun t =>
    (Returned
       (match find (fun r => EmployeeORM.id r =? EmployeeORM.id emp) t with
        | Some r => r
        | None => emp
        end), t).

End Session.

(* ================================================================== *)
(** ** utils *)

(** [get_employee(db, emp_id)] *)
Definition get_employee (emp_id : Z) : Handler (option EmployeeORM.t) :=
  Session.first
    (Session.filter (fun r => EmployeeORM.id r =? emp_id) Session.query).

(** [if x: q = q.filter(cond x)] for an optional query parameter. *)
Definition filter_if (x : option string)
    (cond : string -> EmployeeORM.t -> bool) (q : Session.Query)
  : Session.Query :=
  match x with
  | Some v => if Py.truthy v then Session.filter (cond v) q else q
  | None => q
  end.

(** [EmployeeORM.department == dept] *)
Definition department_eq (dept : string) (r : EmployeeORM.t) : bool :=
  (EmployeeORM.department r =? dept)%string.

(** [EmployeeORM.name.ilike(f"%{search}%")] *)
Definition name_ilike (search : string) (r : EmployeeORM.t) : bool :=
  Sqlite.like (Sqlite.lower ("%" ++ search ++ "%"))
              (Sqlite.lower (EmployeeORM.name r)).

(** [EmployeeORM.name.contains(search)] *)
Definition name_contains (search : string) (r : EmployeeORM.t) : bool :=
  Sqlite.like ("%" ++ search ++ "%") (EmployeeORM.name r).

(** [apply_filters(query, dept, search)] *)
Definition apply_filters (q : Session.Query) (dept search : option string)
  : Session.Query :=
  filter_if search name_ilike (filter_if dept department_eq q).

(* ================================================================== *)
(** ** routes *)

(** [create_employee(payload)] *)
Definition create_employee (payload : EmployeeCreate.t)
  : Handler EmployeeORM.t :=
  dup <- Session.first
           (Session.filter
              (fun r => (EmployeeORM.email r =? EmployeeCreate.email payload)%string)
              Session.query) ;;
  match dup with
  | Some _ => raise (mkHTTPException 400 "Email already exists.")
  | None =>
      emp <- Session.add_commit
               (Py.strip (EmployeeCreate.name payload))
               (EmployeeCreate.email payload)
               (EmployeeCreate.age payload)
               (Py.strip (EmployeeCreate.department payload)) ;;
      Session.refresh emp
  end.

(** [list_employees(dept, search, page, per_page)] *)
Definition list_employees (dept search : option string) (page per_page : Z)
  : Handler (list EmployeeORM.t) :=
  let q := Session.query in
  let q := filter_if dept department_eq q in
  let q := filter_if search name_ilike q in
  let q := Session.limit per_page (Session.offset ((page - 1) * per_page) q) in
  Session.all q.

(** [if v: emp.field = f(v)] for an optional field of the update body. *)
Definition assign_if {A} `{Py.Truthy A} (v : option A)
    (set : A -> EmployeeORM.t -> EmployeeORM.t) (emp : EmployeeORM.t)
  : EmployeeORM.t :=
  match v with
  | Some a => if Py.truthy a then set a emp else emp
  | None => emp
  end.

(** [update_employee(id, payload)] *)
Definition update_employee (id : Z) (payload : EmployeeUpdate.t)
  : Handler EmployeeORM.t :=
  found <- get_employee id ;;
  match found with
  | None => raise (mkHTTPException 404 "Employee not found")
  | Some emp =>
      (* check email if changed *)
      match EmployeeUpdate.email payload with
       | Some e =>
           if Py.truthy e && negb (e =? EmployeeORM.email emp)%string then
             exists_ <- Session.first
                          (Session.filter
                             (fun r => (EmployeeORM.email r =? e)%string)
                             Session.query) ;;
             match exists_ with
             | Some _ => raise (mkHTTPException 400 "Email already in use.")
             | None => ret tt
             end
           else ret tt
       | None => ret tt
       end ;;;
      (* update fields *)
      let emp := assign_if (EmployeeUpdate.name payload)
                   (fun v => EmployeeORM.set_name (Py.strip v)) emp in
      let emp := assign_if (EmployeeUpdate.email payload)
                   EmployeeORM.set_email emp in
      let emp := assign_if (EmployeeUpdate.age payload)
                   EmployeeORM.set_age emp in
      let emp := assign_if (EmployeeUpdate.department payload)
                   (fun v => EmployeeORM.set_department (Py.strip v)) emp in
      Session.commit emp ;;;
      Session.refresh emp
  end.

(** [delete_employee(id)] *)
Definition delete_employee (id : Z) : Handler string :=
  found <- Session.first
             (Session.filter (fun r => EmployeeORM.id r =? id) Session.query) ;;
  match found with
  | None => raise (mkHTTPException 404 "Employee not found")
  | Some emp =>
      Session.delete_commit emp ;;;
      ret "Employee deleted successfully"
  end.

(* ================================================================== *)
(** ** The CSV writer

    [csv.writer(buf)] with its default dialect, [excel]: delimiter [,],
    quotechar the double quote, [doublequote], line terminator CR LF,
    [QUOTE_MINIMAL], no escapechar. *)

Module Csv.

Definition delimiter : ascii := ",".
Definition quotechar : ascii := "034".
Definition CR : ascii := "013".
Definition LF : ascii := "010".
Definition lineterminator : string := String CR (String LF EmptyString).

(** A character that makes [QUOTE_MINIMAL] quote its field. *)
Definition special (c : ascii) : bool :=
  (c =? delimiter)%char || (c =? quotechar)%char || Py.char_in c lineterminator.

(** Whether the field holds a special character. *)
Fixpoint quoted (field : string) : bool :=
  match field with
  | EmptyString => false
  | String c s => special c || quoted s
  end.

(** The characters of the field as they are copied to the record, a
    quotechar doubled. *)
Fixpoint field_data (field : string) : string :=
  match field with
  | EmptyString => EmptyString
  | String c s =>
      if (c =? quotechar)%char then String quotechar (String c (field_data s))
      else String c (field_data s)
  end.

(** One field appended to the record, without its separator. *)
Definition join_append (field : string) : string :=
  if quoted field
  then String quotechar (field_data field ++ String quotechar EmptyString)
  else field_data field.

(** The fields of a record joined by the delimiter. *)
Fixpoint join (fields : list string) : string :=
  match fields with
  | [] => EmptyString
  | [f] => join_append f
  | f :: fs => join_append f ++ String delimiter (join fs)
  end.

(** [writer.writerow(fields)]: the text written.  A record of one empty
    field is written as an empty quoted field. *)
Definition writerow (fields : list string) : string :=
  let rec := join fields in
  let rec :=
    match fields, rec with
    | _ :: _, EmptyString => String quotechar (String quotechar EmptyString)
    | _, _ => rec
    end in
  rec ++ lineterminator.

End Csv.

(** The body of an export response. *)
Inductive ExportBody : Type :=
| JsonBody (records : list EmployeeORM.t)
| CsvBody (payload : string).

(** The header row of the CSV export. *)
Definition csv_header : list string :=
  ["id"; "name"; "email"; "age"; "department"].

(** [[r.id, r.name, r.email, r.age, r.department]], each cell as the writer
    turns it into text. *)
Definition csv_cells (r : EmployeeORM.t) : list string :=
  [Py.str_of_int (EmployeeORM.id r); EmployeeORM.name r; EmployeeORM.email r;
   Py.str_of_int (EmployeeORM.age r); EmployeeORM.department r].

(** [export_employees(fmt, dept, search)] *)
Definition export_employees (fmt : string) (dept search : option string)
  : Handler ExportBody :=
  let q := Session.query in
  let q := filter_if dept department_eq q in
  let q := filter_if search name_contains q in
  rows <- Session.all q ;;
  if (fmt =? "json")%string then ret (JsonBody rows)
  else
    (* CSV export *)
    let buf := EmptyString in
    let buf := buf ++ Csv.writerow csv_header in
    let buf := fold_left (fun buf r => buf ++ Csv.writerow (csv_cells r)) rows buf in
    ret (CsvBody buf).

(* ================================================================== *)
(** ** The application: validation, dispatch and status codes *)

Inductive Response (A : Type) : Type :=
| Success (status : Z) (content : A)
| Failure (status : Z) (detail : string).
Arguments Success {A} status content.
Arguments Failure {A} status detail.

(** The error taxonomy of the specification, by status code. *)
Inductive ErrorKind : Type := InvalidField | DuplicateKey | NotFound.

Definition error_kind {A} (r : Response A) : option ErrorKind :=
  match r with
  | Success _ _ => None
  | Failure st _ =>
      if st =? 422 then Some InvalidField
      else if st =? 400 then Some DuplicateKey
      else if st =? 404 then Some NotFound
      else None
  end.

Definition is_failure {A} (r : Response A) : bool :=
  match r with Success _ _ => false | Failure _ _ => true end.

(** A route: the request is validated; an invalid one is answered 422 and
    the handler is not called; otherwise the handler runs and its value is
    sent with the route's status code, or its exception with its own. *)
Definition route {A} (status : Z) (valid : bool) (h : Handler A)
  : Table -> Response A * Table :=
  fun t =>
    if valid then
      match h t with
      | (Returned a, t') => (Success status a, t')
      | (Raised e, t') => (Failure (status_code e) (detail e), t')
      end
    else (Failure 422 "Unprocessable Entity", t).

(** [POST /employees], [status_code=201] *)
Definition POST_employees (payload : EmployeeCreate.t)
  : Table -> Response EmployeeORM.t * Table :=
  route 201 (Pydantic.validate_create payload) (create_employee payload).

(** [GET /employees]: [page = Query(1, ge=1)],
    [per_page = Query(10, ge=1, le=100)]. *)
Definition GET_employees (dept search : option string) (page per_page : option Z)
  : Table -> Response (list EmployeeORM.t) * Table :=
  let page := match page with Some n => n | None => 1 end in
  let per_page := match per_page with Some n => n | None => 10 end in
  route 200 ((1 <=? page) && ((1 <=? per_page) && (per_page <=? 100)))
        (list_employees dept search page per_page).

(** [PUT /employees/{id}] *)
Definition PUT_employees (id : Z) (payload : EmployeeUpdate.t)
  : Table -> Response EmployeeORM.t * Table :=
  route 200 (Pydantic.validate_update payload) (update_employee id payload).

(** [DELETE /employees/{id}], [status_code=200] *)
Definition DELETE_employees (id : Z) : Table -> Response string * Table :=
  route 200 true (delete_employee id).

(** [GET /employees/export]: [fmt = Query("csv", regex="^(csv|json)$")]. *)
Definition GET_employees_export (fmt dept search : option string)
  : Table -> Response ExportBody * Table :=
  let fmt := match fmt with Some f => f | None => "csv" end in
  route 200 ((fmt =? "csv")%string || (fmt =? "json")%string)
        (export_employees fmt dept search).

(** The mutating requests. *)
Inductive Request : Type :=
| Create (payload : EmployeeCreate.t)
| Update (id : Z) (payload : EmployeeUpdate.t)
| Delete (id : Z).

(** What serving a mutating request comes to: whether it failed, with which
    kind of error, and the table it leaves. *)
Record Served : Type := mkServed
  { failed : bool;
    error : option ErrorKind;
    table_after : Table }.

Definition served {A} (x : Response A * Table) : Served :=
  mkServed (is_failure (fst x)) (error_kind (fst x)) (snd x).

Definition serve (rq : Request) (t : Table) : Served :=
  match rq with
  | Create p => served (POST_employees p t)
  | Update i p => served (PUT_employees i p t)
  | Delete i => served (DELETE_employees i t)
  end.

(** The tables the service can reach from the empty table. *)
Inductive reachable : Table -> Prop :=
| reachable_empty : reachable []
| reachable_serve rq t :
    reachable t -> reachable (table_after (serve rq t)).

(* ================================================================== *)
(** ** Reference definitions for the statements

    These are not translations of [main.py]: they say what the
    specification's words mean, to compare the handlers against. *)

(** A reader of CSV text after RFC 4180: fields separated by commas, records
    ended by CR LF, a field either free of comma, quote, CR and LF or
    enclosed in quotes with each quote inside it doubled. *)
Module Rfc4180.

Inductive mode : Type :=
| RecordStart   (* before the first character of a record *)
| FieldStart    (* after a comma *)
| InField       (* inside a field that is not quoted *)
| InQuoted      (* inside a quoted field *)
| QuoteSeen     (* after a quote inside a quoted field *)
| CrSeen.       (* after the CR that ends a record *)

Record state : Type := mkState
  { st_mode : mode;
    st_field : string;              (* the field read so far *)
    st_record : list string;        (* the fields of the record so far *)
    st_records : list (list string) (* the records read *) }.

Definition init : state := mkState RecordStart EmptyString [] [].

Definition add_char (c : ascii) (m : mode) (s : state) : state :=
  mkState m (st_field s ++ String c EmptyString) (st_record s) (st_records s).

Definition end_field (m : mode) (s : state) : state :=
  mkState m EmptyString (st_record s ++ [st_field s])%list (st_records s).

Definition end_record (s : state) : state :=
  mkState RecordStart EmptyString [] (st_records s ++ [st_record s])%list.

Definition step (s : state) (c : ascii) : option state :=
  match st_mode s with
  | RecordStart | FieldStart | InField =>
      if (c =? Csv.quotechar)%char then
        match st_mode s with
        | InField => None
        | _ => Some (mkState InQuoted (st_field s) (st_record s) (st_records s))
        end
      else if (c =? Csv.delimiter)%char then Some (end_field FieldStart s)
      else if (c =? Csv.CR)%char then Some (end_field CrSeen s)
      else if (c =? Csv.LF)%char then None
      else Some (add_char c InField s)
  | InQuoted =>
      if (c =? Csv.quotechar)%char
      then Some (mkState QuoteSeen (st_field s) (st_record s) (st_records s))
      else Some (add_char c InQuoted s)
  | QuoteSeen =>
      if (c =? Csv.quotechar)%char then Some (add_char c InQuoted s)
      else if (c =? Csv.delimiter)%char then Some (end_field FieldStart s)
      else if (c =? Csv.CR)%char then Some (end_field CrSeen s)
      else None
  | CrSeen =>
      if (c =? Csv.LF)%char then Some (end_record s) else None
  end.

Fixpoint run (s : state) (text : string) : option state :=
  match text with
  | EmptyString => Some s
  | String c text' =>
      match step s c with
      | Some s' => run s' text'
      | None => None
      end
  end.

(** The records at the end of the text; the last record may lack its
    line break. *)
Definition finish (s : state) : option (list (list string)) :=
  match st_mode s with
  | RecordStart => Some (st_records s)
  | FieldStart | InField | QuoteSeen =>
      Some (st_records s ++ [st_record s ++ [st_field s]])%list
  | InQuoted | CrSeen => None
  end.

(** A mode in which a field that is not quoted can begin or go on. *)
Definition open_mode (m : mode) : Prop :=
  m = RecordStart \/ m = FieldStart \/ m = InField.

(** A mode in which the field read so far can end. *)
Definition closing_mode (m : mode) : Prop :=
  open_mode m \/ m = QuoteSeen.

Definition parse (text : string) : option (list (list string)) :=
  match run init text with
  | Some s => finish s
  | None => None
  end.

End Rfc4180.



(** The same two tests, computed. *)
Fixpoint has_substring (sub s : string) : bool :=
  String.prefix sub s ||
  match s with
  | EmptyString => false
  | String _ s' => has_substring sub s'
  end.

Definition has_substring_nocase (sub s : string) : bool :=
  has_substring (Sqlite.lower sub) (Sqlite.lower s).


Definition status {A} (r : Response A) : Z :=
  match r with Success st _ => st | Failure st _ => st end.

(** The invariant of section 3 on ages. *)
Definition age_in_bounds (r : EmployeeORM.t) : Prop :=
  18 <= EmployeeORM.age r <= 100.

(** [get(id)] of the record store: the row with that primary key. *)
Definition lookup (id : Z) (t : Table) : option EmployeeORM.t :=
  find (fun r => EmployeeORM.id r =? id) t.

(** Some row of the table holds the email [e]. *)
Definition email_present (e : string) (t : Table) : Prop :=
  exists r, In r t /\ EmployeeORM.email r = e.

(** The row [create_employee] inserts for a payload. *)
Definition created (payload : EmployeeCreate.t) (t : Table) : EmployeeORM.t :=
  EmployeeORM.mk (Session.next_rowid t)
    (Py.strip (EmployeeCreate.name payload))
    (EmployeeCreate.email payload)
    (EmployeeCreate.age payload)
    (Py.strip (EmployeeCreate.department payload)).

(** Two create requests served one after the other, [p1] first: the first is
    answered 201 with a row whose id no row of [t] has, the second is answered
    400, and the table gained that one row. *)
Definition one_created_one_duplicate (p1 p2 : EmployeeCreate.t) (t : Table)
  : Prop :=
  let '(r1, t1) := POST_employees p1 t in
  let '(r2, t2) := POST_employees p2 t1 in
  (exists emp,
      r1 = Success 201 emp
      /\ ~ In (EmployeeORM.id emp) (map EmployeeORM.id t)
      /\ EmployeeORM.email emp = EmployeeCreate.email p1
      /\ t1 = (t ++ [emp])%list)
  /\ status r2 = 400
  /\ error_kind r2 = Some DuplicateKey
  /\ t2 = t1.

(** Sample data of the scenarios of the specification. *)
Module Sample.
Definition alice : EmployeeCreate.t :=
  EmployeeCreate.mk "Alice" "alice@example.com" 30 "Engineering".
Definition alice' : EmployeeCreate.t :=
  EmployeeCreate.mk "Alice B." "alice@example.com" 41 "Sales".
Definition bob : EmployeeORM.t :=
  EmployeeORM.mk 1 "Bob" "bob@example.com" 52 "Sales".
Definition carol : EmployeeORM.t :=
  EmployeeORM.mk 2 "Carol" "carol@example.com" 27 "Engineering".
Definition blank_name : EmployeeCreate.t :=
  EmployeeCreate.mk " " "a@b.co" 30 "Eng".
Definition age_only (n : Z) : EmployeeUpdate.t :=
  EmployeeUpdate.mk None None (Some n) None.
End Sample.

(** The text of the written records, one after the other. *)
Fixpoint csv_text (records : list (list string)) : string :=
  match records with
  | [] => EmptyString
  | fs :: records' => Csv.writerow fs ++ csv_text records'
  end.

(** Primary keys are unique and every stored email passed [EmailStr]. *)
Definition table_ok (t : Table) : Prop :=
  NoDup (map EmployeeORM.id t)
  /\ Forall (fun r => Pydantic.EmailStr (EmployeeORM.email r) = true) t.

(** The object [emp] after the four conditional assignments of
    [update_employee]. *)
Definition assigned (payload : EmployeeUpdate.t) (emp : EmployeeORM.t)
  : EmployeeORM.t :=
  assign_if (EmployeeUpdate.department payload)
    (fun v => EmployeeORM.set_department (Py.strip v))
    (assign_if (EmployeeUpdate.age payload) EmployeeORM.set_age
       (assign_if (EmployeeUpdate.email payload) EmployeeORM.set_email
          (assign_if (EmployeeUpdate.name payload)
             (fun v => EmployeeORM.set_name (Py.strip v)) emp))).

(** The email check of [update_employee] finds a row. *)
Definition email_in_use (payload : EmployeeUpdate.t) (emp : EmployeeORM.t)
    (t : Table) : bool :=
  match EmployeeUpdate.email payload with
  | Some e =>
      Py.truthy e && negb (e =? EmployeeORM.email emp)%string
      && match find (fun r => (EmployeeORM.email r =? e)%string) t with
         | Some _ => true
         | None => false
         end
  | None => false
  end.

(** The write of a successful update: every row with the primary key of
    [emp] becomes [emp]. *)
Definition written (emp : EmployeeORM.t) (t : Table) : Table :=
  map (fun r => if EmployeeORM.id r =? EmployeeORM.id emp then emp else r) t.

(** The rows [list_employees] pages through. *)
Definition listed (dept search : option string) : Session.Query :=
  filter_if search name_ilike (filter_if dept department_eq Session.query).

(** The rows [export_employees] writes out. *)
Definition exported (dept search : option string) : Session.Query :=
  filter_if search name_contains (filter_if dept department_eq Session.query).

(** A row whose name and department [strip()] leaves as they are. *)
Definition trimmed (r : EmployeeORM.t) : Prop :=
  Py.strip (EmployeeORM.name r) = EmployeeORM.name r
  /\ Py.strip (EmployeeORM.department r) = EmployeeORM.department r.

(** The primary keys go up along the table. *)
Definition ids_ascending (l : list EmployeeORM.t) : Prop :=
  StronglySorted Z.lt (map EmployeeORM.id l).

(** The records of one page of the list, none when the request fails. *)
Definition page_rows (dept search : option string) (page per_page : Z)
    (t : Table) : list EmployeeORM.t :=
  match fst (GET_employees dept search (Some page) (Some per_page) t) with
  | Success _ l => l
  | Failure _ _ => []
  end.

(** The pages 1 to [k] of the list, one after the other. *)
Fixpoint pages_upto (dept search : option string) (per_page : Z) (k : nat)
    (t : Table) : list EmployeeORM.t :=
  match k with
  | O => []
  | S k' =>
      (pages_upto dept search per_page k' t
       ++ page_rows dept search (Z.of_nat k) per_page t)%list
  end.

(* ================================================================== *)
(** ** Lists and queries *)

Section ListFacts.

Context {A : Type}.

Lemma hd_error_filter (f : A -> bool) (l : list A) :
  hd_error (List.filter f l) = find f l.
Proof.
  induction l as [|a l IH]; simpl; [reflexivity|].
  destruct (f a); simpl; auto.
Qed.

Lemma find_app_none (f : A -> bool) (l1 l2 : list A) :
  find f l1 = None -> find f (l1 ++ l2)%list = find f l2.
Proof.
  induction l1 as [|a l1 IH]; simpl; [reflexivity|].
  destruct (f a); [discriminate | auto].
Qed.

Lemma find_none_iff (f : A -> bool) (l : list A) :
  find f l = None <-> forall a, In a l -> f a = false.
Proof.
  split.
  - apply find_none.
  - induction l as [|a l IH]; simpl; intros H; [reflexivity|].
    rewrite (H a (or_introl eq_refl)). apply IH. intros b Hb. apply H. now right.
Qed.

Lemma firstn_then_next (n m : nat) (l : list A) :
  (firstn n l ++ firstn m (skipn n l))%list = firstn (n + m) l.
Proof.
  revert l. induction n as [|n IH]; intros l; simpl.
  - reflexivity.
  - destruct l as [|a l]; simpl.
    + now rewrite firstn_nil.
    + now rewrite IH.
Qed.

Lemma last_cons (a d : A) (l : list A) : last (a :: l) d = last l a.
Proof.
  revert a d. induction l as [|b l IH]; intros a d; [reflexivity|].
  change (last (a :: b :: l) d) with (last (b :: l) d).
  rewrite IH. symmetry. apply IH.
Qed.

End ListFacts.

(* ================================================================== *)
(** ** What each handler computes *)

Lemma get_employee_eq (id : Z) (t : Table) :
  get_employee id t = (Returned (lookup id t), t).
Proof.
  unfold get_employee, Session.first, Session.filter, Session.query, lookup.
  now rewrite hd_error_filter.
Qed.

Lemma lookup_id (id : Z) (t : Table) (emp : EmployeeORM.t) :
  lookup id t = Some emp -> EmployeeORM.id emp = id /\ In emp t.
Proof.
  unfold lookup. intros H. apply find_some in H. destruct H as [Hin Heq].
  split; [lia | exact Hin].
Qed.

Lemma fold_max_ge (i : Z) (l : list Z) :
  i <= fold_right Z.max i l /\ forall j, In j l -> j <= fold_right Z.max i l.
Proof.
  induction l as [|k l [IH1 IH2]]; simpl.
  - split; [lia | tauto].
  - split; [lia|]. intros j [->|Hj]; [lia|]. specialize (IH2 j Hj). lia.
Qed.

(** The rowid of an insert is above every rowid of the table. *)
Lemma next_rowid_above (t : Table) (r : EmployeeORM.t) :
  In r t -> EmployeeORM.id r < Session.next_rowid t.
Proof.
  unfold Session.next_rowid. intros Hin.
  apply (in_map EmployeeORM.id) in Hin.
  destruct (map EmployeeORM.id t) as [|i l]; [destruct Hin|].
  destruct (fold_max_ge i l) as [H1 H2].
  destruct Hin as [<-|Hin]; [lia|]. specialize (H2 _ Hin). lia.
Qed.

Lemma next_rowid_fresh (t : Table) :
  ~ In (Session.next_rowid t) (map EmployeeORM.id t).
Proof.
  intros Hin. apply in_map_iff in Hin. destruct Hin as [r [Heq Hin]].
  apply next_rowid_above in Hin. lia.
Qed.

Lemma lookup_next_rowid (t : Table) : lookup (Session.next_rowid t) t = None.
Proof.
  unfold lookup. apply find_none_iff. intros r Hin.
  apply next_rowid_above in Hin. lia.
Qed.

Lemma create_employee_eq (payload : EmployeeCreate.t) (t : Table) :
  create_employee payload t =
  match find (fun r => (EmployeeORM.email r =? EmployeeCreate.email payload)%string) t with
  | Some _ => (Raised (mkHTTPException 400 "Email already exists."), t)
  | None => (Returned (created payload t), (t ++ [created payload t])%list)
  end.
Proof.
  unfold create_employee, bind, Session.first, Session.filter, Session.query.
  rewrite hd_error_filter.
  destruct (find _ t) as [r|]; [reflexivity|].
  unfold Session.add_commit, Session.refresh. cbv zeta.
  fold (created payload t). fold (lookup (EmployeeORM.id (created payload t)) (t ++ [created payload t])%list).
  unfold lookup. rewrite find_app_none by apply lookup_next_rowid.
  simpl. now rewrite Z.eqb_refl.
Qed.

Lemma assigned_id (payload : EmployeeUpdate.t) (emp : EmployeeORM.t) :
  EmployeeORM.id (assigned payload emp) = EmployeeORM.id emp.
Proof.
  unfold assigned, assign_if.
  destruct payload as [[n|] [e|] [a|] [d|]]; simpl;
    repeat match goal with |- context [if ?b then _ else _] => destruct b end;
    reflexivity.
Qed.

Lemma lookup_written (emp old : EmployeeORM.t) (t : Table) :
  lookup (EmployeeORM.id emp) t = Some old ->
  lookup (EmployeeORM.id emp) (written emp t) = Some emp.
Proof.
  unfold lookup, written. induction t as [|r t IH]; simpl; [discriminate|].
  destruct (EmployeeORM.id r =? EmployeeORM.id emp) eqn:E.
  - intros _. now rewrite Z.eqb_refl.
  - rewrite E. exact IH.
Qed.

Lemma update_employee_eq (id : Z) (payload : EmployeeUpdate.t) (t : Table) :
  update_employee id payload t =
  match lookup id t with
  | None => (Raised (mkHTTPException 404 "Employee not found"), t)
  | Some emp =>
      if email_in_use payload emp t
      then (Raised (mkHTTPException 400 "Email already in use."), t)
      else (Returned (assigned payload emp), written (assigned payload emp) t)
  end.
Proof.
  unfold update_employee, bind at 1. rewrite get_employee_eq.
  destruct (lookup id t) as [emp|] eqn:Hl; [|reflexivity].
  assert (Hw : forall t',
    (Session.commit (assigned payload emp) ;;; Session.refresh (assigned payload emp)) t'
    = (Returned (match lookup (EmployeeORM.id emp) (written (assigned payload emp) t') with
                 | Some r => r | None => assigned payload emp end),
       written (assigned payload emp) t')).
  { intros t'. unfold bind, Session.commit, Session.refresh, lookup, written.
    now rewrite assigned_id. }
  assert (Hok :
    (Session.commit (assigned payload emp) ;;; Session.refresh (assigned payload emp)) t
    = (Returned (assigned payload emp), written (assigned payload emp) t)).
  { rewrite Hw. destruct (lookup_id _ _ _ Hl) as [Hid _]. subst id.
    rewrite <- (assigned_id payload emp) at 1.
    rewrite (lookup_written (assigned payload emp) emp)
      by (now rewrite assigned_id). reflexivity. }
  unfold email_in_use. fold (assigned payload emp).
  unfold bind at 1.
  destruct (EmployeeUpdate.email payload) as [e|]; [|exact Hok].
  destruct (Py.truthy e && negb (e =? EmployeeORM.email emp)%string); [|exact Hok].
  unfold bind at 1, Session.first, Session.filter, Session.query.
  rewrite hd_error_filter.
  destruct (find _ t); [reflexivity | exact Hok].
Qed.

Lemma delete_employee_eq (id : Z) (t : Table) :
  delete_employee id t =
  match lookup id t with
  | None => (Raised (mkHTTPException 404 "Employee not found"), t)
  | Some emp =>
      (Returned "Employee deleted successfully",
       List.filter (fun r => negb (EmployeeORM.id r =? EmployeeORM.id emp)) t)
  end.
Proof.
  unfold delete_employee, bind, Session.first, Session.filter, Session.query.
  rewrite hd_error_filter. fold (lookup id t).
  destruct (lookup id t); reflexivity.
Qed.

Lemma list_employees_eq (dept search : option string) (page per_page : Z) (t : Table) :
  list_employees dept search page per_page t =
  (Returned (firstn (Z.to_nat per_page)
               (skipn (Z.to_nat ((page - 1) * per_page)) (listed dept search t))), t).
Proof. reflexivity. Qed.

(* ================================================================== *)
(** ** What each route answers *)

Lemma POST_employees_eq (payload : EmployeeCreate.t) (t : Table) :
  POST_employees payload t =
  if Pydantic.validate_create payload then
    match find (fun r => (EmployeeORM.email r =? EmployeeCreate.email payload)%string) t with
    | Some _ => (Failure 400 "Email already exists.", t)
    | None => (Success 201 (created payload t), (t ++ [created payload t])%list)
    end
  else (Failure 422 "Unprocessable Entity", t).
Proof.
  unfold POST_employees, route. rewrite create_employee_eq.
  destruct (Pydantic.validate_create payload); [|reflexivity].
  destruct (find _ t); reflexivity.
Qed.

Lemma PUT_employees_eq (id : Z) (payload : EmployeeUpdate.t) (t : Table) :
  PUT_employees id payload t =
  if Pydantic.validate_update payload then
    match lookup id t with
    | None => (Failure 404 "Employee not found", t)
    | Some emp =>
        if email_in_use payload emp t
        then (Failure 400 "Email already in use.", t)
        else (Success 200 (assigned payload emp), written (assigned payload emp) t)
    end
  else (Failure 422 "Unprocessable Entity", t).
Proof.
  unfold PUT_employees, route. rewrite update_employee_eq.
  destruct (Pydantic.validate_update payload); [|reflexivity].
  destruct (lookup id t) as [emp|]; [|reflexivity].
  destruct (email_in_use payload emp t); reflexivity.
Qed.

Lemma DELETE_employees_eq (id : Z) (t : Table) :
  DELETE_employees id t =
  match lookup id t with
  | None => (Failure 404 "Employee not found", t)
  | Some emp =>
      (Success 200 "Employee deleted successfully",
       List.filter (fun r => negb (EmployeeORM.id r =? EmployeeORM.id emp)) t)
  end.
Proof.
  unfold DELETE_employees, route. rewrite delete_employee_eq.
  destruct (lookup id t); reflexivity.
Qed.

Lemma GET_employees_eq (dept search : option string) (page per_page : Z) (t : Table) :
  1 <= page -> 1 <= per_page <= 100 ->
  GET_employees dept search (Some page) (Some per_page) t =
  (Success 200
     (firstn (Z.to_nat per_page)
        (skipn (Z.to_nat ((page - 1) * per_page)) (listed dept search t))), t).
Proof.
  intros Hp Hpp. unfold GET_employees, route. rewrite list_employees_eq.
  replace (1 <=? page) with true by (symmetry; apply Z.leb_le; lia).
  replace (1 <=? per_page) with true by (symmetry; apply Z.leb_le; lia).
  replace (per_page <=? 100) with true by (symmetry; apply Z.leb_le; lia).
  reflexivity.
Qed.

Lemma find_email_none (e : string) (t : Table) :
  find (fun r => (EmployeeORM.email r =? e)%string) t = None <->
  ~ email_present e t.
Proof.
  rewrite find_none_iff. unfold email_present. split.
  - intros H [r [Hin Heq]]. specialize (H r Hin).
    apply String.eqb_neq in H. contradiction.
  - intros H r Hin. apply String.eqb_neq. intros Heq. apply H. now exists r.
Qed.

(* ================================================================== *)
(** ** Create *)

Lemma create_then_duplicate (p1 p2 : EmployeeCreate.t) (t : Table) :
  Pydantic.validate_create p1 = true ->
  Pydantic.validate_create p2 = true ->
  EmployeeCreate.email p1 = EmployeeCreate.email p2 ->
  ~ email_present (EmployeeCreate.email p1) t ->
  one_created_one_duplicate p1 p2 t.
Proof.
  intros V1 V2 He Hfree. unfold one_created_one_duplicate.
  rewrite (POST_employees_eq p1 t), V1.
  apply find_email_none in Hfree. rewrite Hfree.
  rewrite POST_employees_eq, V2, <- He.
  rewrite find_app_none by exact Hfree.
  simpl. rewrite String.eqb_refl. simpl.
  repeat split.
  exists (created p1 t). repeat split.
  simpl. apply next_rowid_fresh.
Qed.

(** C1. Two valid create requests carry the same email and no row of the
    table holds it.  Whichever of the two is served first is answered 201
    with a row under an id that no row had, and the other is answered 400,
    the duplicate-key error, without any change to the table. *)
Theorem same_email_one_created_one_duplicate
    (p1 p2 : EmployeeCreate.t) (t : Table) :
  Pydantic.validate_create p1 = true ->
  Pydantic.validate_create p2 = true ->
  EmployeeCreate.email p1 = EmployeeCreate.email p2 ->
  ~ email_present (EmployeeCreate.email p1) t ->
  one_created_one_duplicate p1 p2 t /\ one_created_one_duplicate p2 p1 t.
Proof.
  intros V1 V2 He Hfree. split.
  - now apply create_then_duplicate.
  - apply create_then_duplicate; auto. now rewrite <- He.
Qed.

Lemma same_email_one_created_one_duplicate_witness :
  one_created_one_duplicate Sample.alice Sample.alice' [Sample.bob]
  /\ one_created_one_duplicate Sample.alice' Sample.alice [Sample.bob].
Proof.
  apply same_email_one_created_one_duplicate;
    [reflexivity | reflexivity | reflexivity |].
  intros [r [[<-|[]] H]]. discriminate H.
Defined.

(** A payload that fails validation is answered 422 and inserts nothing. *)
Lemma create_invalid_rejected (payload : EmployeeCreate.t) (t : Table) :
  Pydantic.validate_create payload = false ->
  POST_employees payload t = (Failure 422 "Unprocessable Entity", t).
Proof. intros H. now rewrite POST_employees_eq, H. Qed.

Lemma create_empty_name_rejected (payload : EmployeeCreate.t) (t : Table) :
  EmployeeCreate.name payload = EmptyString ->
  POST_employees payload t = (Failure 422 "Unprocessable Entity", t).
Proof.
  intros H. apply create_invalid_rejected.
  unfold Pydantic.validate_create. now rewrite H.
Qed.

Lemma create_age_out_of_bounds_rejected (payload : EmployeeCreate.t) (t : Table) :
  ~ (18 <= EmployeeCreate.age payload <= 100) ->
  POST_employees payload t = (Failure 422 "Unprocessable Entity", t).
Proof.
  intros H. apply create_invalid_rejected.
  unfold Pydantic.validate_create.
  destruct (18 <=? EmployeeCreate.age payload) eqn:E1;
    destruct (EmployeeCreate.age payload <=? 100) eqn:E2;
    rewrite ?andb_false_r, ?andb_false_l; simpl; try reflexivity.
  apply Z.leb_le in E1, E2. lia.
Qed.

(** C5. The name of one space passes [min_length=1], which counts the
    characters before [strip()] runs; the request is answered 201 and the
    row is stored with the empty name. *)
Theorem create_blank_name_is_stored :
  Py.strip (EmployeeCreate.name Sample.blank_name) = EmptyString
  /\ POST_employees Sample.blank_name [] =
     (Success 201 (EmployeeORM.mk 1 "" "a@b.co" 30 "Eng"),
      [EmployeeORM.mk 1 "" "a@b.co" 30 "Eng"]).
Proof. split; reflexivity. Qed.

(** C2. An update body is not checked for the bounds of [age]: after Alice
    is created, the update of her row with age 5 is answered 200 and the age
    5 is stored, in a table the service has reached. *)
Theorem update_stores_age_out_of_bounds :
  let t1 := table_after (serve (Create Sample.alice) []) in
  let row := EmployeeORM.mk 1 "Alice" "alice@example.com" 5 "Engineering" in
  PUT_employees 1 (Sample.age_only 5) t1 = (Success 200 row, [row])
  /\ reachable [row]
  /\ ~ age_in_bounds row.
Proof.
  cbv zeta. split; [reflexivity|]. split.
  - exact (reachable_serve (Update 1 (Sample.age_only 5)) _
             (reachable_serve (Create Sample.alice) _ reachable_empty)).
  - unfold age_in_bounds. simpl. lia.
Qed.

(* ================================================================== *)
(** ** Failures leave the table as it was *)

(** C3. A create, update or delete request that is answered with an error
    leaves the table exactly as it was, and the error is one of the three
    kinds: invalid field, duplicate key, not found. *)
Theorem failed_request_leaves_table (rq : Request) (t : Table) :
  failed (serve rq t) = true ->
  table_after (serve rq t) = t /\ exists k, error (serve rq t) = Some k.
Proof.
  destruct rq as [p | i p | i]; unfold serve, served; simpl.
  - rewrite POST_employees_eq.
    destruct (Pydantic.validate_create p); simpl.
    + destruct (find _ t); simpl; [eauto | discriminate].
    + eauto.
  - rewrite PUT_employees_eq.
    destruct (Pydantic.validate_update p); simpl; [|eauto].
    destruct (lookup i t) as [emp|]; simpl; [|eauto].
    destruct (email_in_use p emp t); simpl; [eauto | discriminate].
  - rewrite DELETE_employees_eq.
    destruct (lookup i t) as [emp|]; simpl; [discriminate | eauto].
Qed.

Lemma failed_request_leaves_table_witness :
  failed (serve (Create Sample.alice') [EmployeeORM.mk 1 "Alice" "alice@example.com" 30 "Engineering"]) = true
  /\ table_after (serve (Create Sample.alice') [EmployeeORM.mk 1 "Alice" "alice@example.com" 30 "Engineering"])
     = [EmployeeORM.mk 1 "Alice" "alice@example.com" 30 "Engineering"].
Proof.
  split; [reflexivity|].
  apply (failed_request_leaves_table (Create Sample.alice')). reflexivity.
Defined.

(* ================================================================== *)
(** ** Listing *)

(** C10. With [page] and [per_page] omitted the list request is the request
    for page 1 of 10 records: it is answered with the first 10 records, or
    all if fewer, of the filtered rows. *)
Theorem list_defaults (dept search : option string) (t : Table) :
  GET_employees dept search None None t
  = GET_employees dept search (Some 1) (Some 10) t
  /\ GET_employees dept search None None t
     = (Success 200 (firstn 10 (listed dept search t)), t)
  /\ (List.length (firstn 10 (listed dept search t)) <= 10)%nat.
Proof.
  split; [reflexivity|]. split; [reflexivity|]. apply firstn_le_length.
Qed.

(** C7. Against one table and one filter, page 1 of 10 followed by page 2 of
    10 is page 1 of 20.  For [page >= 1] and [per_page] from 1 to 100 the
    answer is the slice of the filtered rows from offset
    [(page - 1) * per_page], of at most [per_page] rows, and the table is
    not changed. *)
Theorem pagination_windows (dept search : option string) (t : Table) :
  (exists l1 l2 l12,
      GET_employees dept search (Some 1) (Some 10) t = (Success 200 l1, t)
      /\ GET_employees dept search (Some 2) (Some 10) t = (Success 200 l2, t)
      /\ GET_employees dept search (Some 1) (Some 20) t = (Success 200 l12, t)
      /\ (l1 ++ l2)%list = l12)
  /\ forall page per_page,
      1 <= page -> 1 <= per_page <= 100 ->
      exists l,
        GET_employees dept search (Some page) (Some per_page) t = (Success 200 l, t)
        /\ l = firstn (Z.to_nat per_page)
                 (skipn (Z.to_nat ((page - 1) * per_page)) (listed dept search t))
        /\ (List.length l <= Z.to_nat per_page)%nat.
Proof.
  split.
  - exists (firstn 10 (listed dept search t)),
           (firstn 10 (skipn 10 (listed dept search t))),
           (firstn 20 (listed dept search t)).
    repeat split. apply (firstn_then_next 10 10).
  - intros page per_page Hp Hpp. eexists. split; [now apply GET_employees_eq|].
    split; [reflexivity | apply firstn_le_length].
Qed.

Lemma pagination_windows_witness :
  1 <= 2 /\ 1 <= 1 <= 100
  /\ exists l,
      GET_employees None None (Some 2) (Some 1) [Sample.bob; Sample.carol]
      = (Success 200 l, [Sample.bob; Sample.carol])
      /\ l = [Sample.carol]
      /\ (List.length l <= 1)%nat.
Proof.
  split; [lia|]. split; [lia|].
  apply (proj2 (pagination_windows None None [Sample.bob; Sample.carol]) 2 1); lia.
Defined.

(* ================================================================== *)
(** ** Invariants of the reachable tables *)

Lemma EmailStr_truthy (e : string) :
  Pydantic.EmailStr e = true -> Py.truthy e = true.
Proof. destruct e; [discriminate | reflexivity]. Qed.

Lemma map_id_written (emp : EmployeeORM.t) (t : Table) :
  map EmployeeORM.id (written emp t) = map EmployeeORM.id t.
Proof.
  unfold written. rewrite map_map. apply map_ext_in. intros r _.
  destruct (EmployeeORM.id r =? EmployeeORM.id emp) eqn:E; [|reflexivity].
  apply Z.eqb_eq in E. now rewrite E.
Qed.

Lemma NoDup_map_filter {A B} (g : A -> B) (f : A -> bool) (l : list A) :
  NoDup (map g l) -> NoDup (map g (List.filter f l)).
Proof.
  induction l as [|a l IH]; simpl; intros H; [constructor|].
  inversion H as [|x k Hnin Hnd]; subst.
  destruct (f a); simpl; [|auto].
  constructor; [|auto].
  intros Hin. apply Hnin. apply in_map_iff in Hin.
  destruct Hin as [b [Hb Hin]]. apply filter_In in Hin.
  apply in_map_iff. exists b. tauto.
Qed.

Lemma NoDup_snoc {A} (x : A) (l : list A) :
  NoDup l -> ~ In x l -> NoDup (l ++ [x])%list.
Proof.
  induction l as [|a l IH]; simpl; intros Hnd Hnin.
  - constructor; [tauto | constructor].
  - inversion Hnd as [|y k Ha Hl]; subst. constructor.
    + rewrite in_app_iff. simpl. intros [H|[H|[]]]; [tauto|]. subst. tauto.
    + apply IH; tauto.
Qed.

Lemma assigned_email (payload : EmployeeUpdate.t) (emp : EmployeeORM.t) :
  EmployeeORM.email (assigned payload emp) =
  match EmployeeUpdate.email payload with
  | Some e => if Py.truthy e then e else EmployeeORM.email emp
  | None => EmployeeORM.email emp
  end.
Proof.
  unfold assigned, assign_if.
  destruct payload as [[n|] [e|] [a|] [d|]]; simpl;
    repeat match goal with |- context [if ?b then _ else _] => destruct b end;
    reflexivity.
Qed.

Lemma table_ok_serve (rq : Request) (t : Table) :
  table_ok t -> table_ok (table_after (serve rq t)).
Proof.
  intros [Hnd Hem]. destruct rq as [p | i p | i]; unfold serve, served; simpl.
  - rewrite POST_employees_eq.
    destruct (Pydantic.validate_create p) eqn:V; simpl; [|now split].
    destruct (find _ t) eqn:F; simpl; [now split|]. split.
    + rewrite map_app. simpl. apply NoDup_snoc; [exact Hnd | apply next_rowid_fresh].
    + apply Forall_app. split; [exact Hem|]. constructor; [|constructor].
      simpl. unfold Pydantic.validate_create in V.
      destruct (Pydantic.EmailStr (EmployeeCreate.email p)); [reflexivity|].
      now rewrite andb_false_r in V.
  - rewrite PUT_employees_eq.
    destruct (Pydantic.validate_update p) eqn:V; simpl; [|now split].
    destruct (lookup i t) as [emp|] eqn:L; simpl; [|now split].
    destruct (email_in_use p emp t); simpl; [now split|]. split.
    + now rewrite map_id_written.
    + unfold written. apply Forall_map. rewrite Forall_forall in *. intros r Hr.
      destruct (EmployeeORM.id r =? EmployeeORM.id (assigned p emp)); [|auto].
      rewrite assigned_email. unfold Pydantic.validate_update in V.
      destruct (lookup_id _ _ _ L) as [_ Hin].
      destruct (EmployeeUpdate.email p) as [e|]; [|auto].
      destruct (Py.truthy e); auto.
  - rewrite DELETE_employees_eq.
    destruct (lookup i t) as [emp|]; simpl; [|now split]. split.
    + now apply NoDup_map_filter.
    + rewrite Forall_forall in *. intros r Hr. apply filter_In in Hr. apply Hem, Hr.
Qed.

Lemma reachable_ok (t : Table) : reachable t -> table_ok t.
Proof.
  induction 1 as [|rq t _ IH].
  - split; constructor.
  - now apply table_ok_serve.
Qed.

Lemma same_id_same_row (t : Table) (r1 r2 : EmployeeORM.t) :
  NoDup (map EmployeeORM.id t) -> In r1 t -> In r2 t ->
  EmployeeORM.id r1 = EmployeeORM.id r2 -> r1 = r2.
Proof.
  induction t as [|a t IH]; simpl; intros Hnd H1 H2 Heq; [destruct H1|].
  inversion Hnd as [|x k Hnin Hnd']; subst.
  destruct H1 as [->|H1], H2 as [->|H2]; auto.
  - exfalso. apply Hnin. rewrite Heq. now apply in_map.
  - exfalso. apply Hnin. rewrite <- Heq. now apply in_map.
Qed.

(* ================================================================== *)
(** ** Update *)

Lemma email_in_use_iff (payload : EmployeeUpdate.t) (emp : EmployeeORM.t)
    (t : Table) :
  email_in_use payload emp t = true <->
  exists e, EmployeeUpdate.email payload = Some e
            /\ Py.truthy e = true
            /\ e <> EmployeeORM.email emp
            /\ email_present e t.
Proof.
  unfold email_in_use. split.
  - destruct (EmployeeUpdate.email payload) as [e|]; [|discriminate].
    intros H. apply andb_prop in H. destruct H as [H Hf].
    apply andb_prop in H. destruct H as [Ht Hne].
    exists e. repeat split; auto.
    + apply negb_true_iff, String.eqb_neq in Hne. exact Hne.
    + destruct (find _ t) as [r|] eqn:F; [|discriminate].
      apply find_some in F. destruct F as [Hin Heq].
      apply String.eqb_eq in Heq. now exists r.
  - intros [e [-> [Ht [Hne Hp]]]]. rewrite Ht. simpl.
    apply String.eqb_neq in Hne. rewrite Hne. simpl.
    destruct (find _ t) eqn:F; [reflexivity|].
    apply find_email_none in F. contradiction.
Qed.

(** C4. In a table the service has reached, the update of an existing
    employee is answered with the duplicate-key error exactly when the body
    gives an email that is not the current email of the record and is the
    email of another row.  A body without email, or with the current email
    of the record, is never answered with that error. *)
Theorem update_duplicate_key_iff
    (t : Table) (id : Z) (payload : EmployeeUpdate.t) (emp : EmployeeORM.t) :
  reachable t ->
  lookup id t = Some emp ->
  (error_kind (fst (PUT_employees id payload t)) = Some DuplicateKey <->
   exists e r,
     EmployeeUpdate.email payload = Some e
     /\ e <> EmployeeORM.email emp
     /\ In r t /\ EmployeeORM.id r <> id /\ EmployeeORM.email r = e)
  /\ (EmployeeUpdate.email payload = None
      \/ EmployeeUpdate.email payload = Some (EmployeeORM.email emp) ->
      error_kind (fst (PUT_employees id payload t)) <> Some DuplicateKey).
Proof.
  intros Hr Hl. destruct (reachable_ok t Hr) as [Hnd Hem].
  destruct (lookup_id _ _ _ Hl) as [Hid Hin].
  assert (Hiff :
    error_kind (fst (PUT_employees id payload t)) = Some DuplicateKey <->
    Pydantic.validate_update payload = true /\ email_in_use payload emp t = true).
  { rewrite PUT_employees_eq, Hl.
    destruct (Pydantic.validate_update payload); simpl.
    - destruct (email_in_use payload emp t); simpl; split;
        (discriminate || tauto || (intros [_ H]; discriminate H)).
    - split; [discriminate | intros [H _]; discriminate H]. }
  split.
  - rewrite Hiff, email_in_use_iff. split.
    + intros [_ [e [He [_ [Hne [r [Hrin Hre]]]]]]].
      exists e, r. repeat split; auto.
      intros Hsame. apply Hne. rewrite <- Hre. f_equal.
      apply (same_id_same_row t); auto. lia.
    + intros [e [r [He [Hne [Hrin [_ Hre]]]]]].
      assert (Hv : Pydantic.EmailStr e = true).
      { rewrite Forall_forall in Hem. rewrite <- Hre. now apply Hem. }
      split.
      * unfold Pydantic.validate_update. now rewrite He.
      * exists e. repeat split; auto.
        -- now apply EmailStr_truthy.
        -- now exists r.
  - intros Hcase Hdup. apply Hiff in Hdup. destruct Hdup as [_ Hdup].
    apply email_in_use_iff in Hdup.
    destruct Hdup as [e [He [_ [Hne _]]]].
    destruct Hcase as [Hc|Hc]; rewrite Hc in He; [discriminate|].
    injection He as <-. now apply Hne.
Qed.

Lemma update_duplicate_key_iff_witness :
  let t := table_after (serve (Create Sample.alice')
             (table_after (serve (Create (EmployeeCreate.mk "Bob" "bob@example.com" 52 "Sales")) []))) in
  let payload := EmployeeUpdate.mk None (Some "bob@example.com") None None in
  reachable t
  /\ lookup 2 t = Some (EmployeeORM.mk 2 "Alice B." "alice@example.com" 41 "Sales")
  /\ error_kind (fst (PUT_employees 2 payload t)) = Some DuplicateKey.
Proof.
  cbv zeta.
  assert (Hr : reachable
    (table_after (serve (Create Sample.alice')
       (table_after (serve (Create (EmployeeCreate.mk "Bob" "bob@example.com" 52 "Sales")) []))))).
  { apply reachable_serve, reachable_serve, reachable_empty. }
  split; [exact Hr|]. split; [reflexivity|].
  apply (proj1 (update_duplicate_key_iff _ 2
                  (EmployeeUpdate.mk None (Some "bob@example.com") None None)
                  (EmployeeORM.mk 2 "Alice B." "alice@example.com" 41 "Sales")
                  Hr eq_refl)).
  exists "bob@example.com", Sample.bob. simpl. repeat split.
  - discriminate.
  - now left.
  - lia.
Defined.

Ltac assigned_cases payload :=
  unfold assigned, assign_if;
  destruct payload as [[?|] [?|] [?|] [?|]]; simpl;
  repeat match goal with |- context [if ?b then _ else _] => destruct b end;
  reflexivity.

Lemma assigned_name (payload : EmployeeUpdate.t) (emp : EmployeeORM.t) :
  EmployeeORM.name (assigned payload emp) =
  match EmployeeUpdate.name payload with
  | Some v => if Py.truthy v then Py.strip v else EmployeeORM.name emp
  | None => EmployeeORM.name emp
  end.
Proof. assigned_cases payload. Qed.

Lemma assigned_age (payload : EmployeeUpdate.t) (emp : EmployeeORM.t) :
  EmployeeORM.age (assigned payload emp) =
  match EmployeeUpdate.age payload with
  | Some v => if Py.truthy v then v else EmployeeORM.age emp
  | None => EmployeeORM.age emp
  end.
Proof. assigned_cases payload. Qed.

Lemma assigned_department (payload : EmployeeUpdate.t) (emp : EmployeeORM.t) :
  EmployeeORM.department (assigned payload emp) =
  match EmployeeUpdate.department payload with
  | Some v => if Py.truthy v then Py.strip v else EmployeeORM.department emp
  | None => EmployeeORM.department emp
  end.
Proof. assigned_cases payload. Qed.

Lemma lookup_written_other (emp : EmployeeORM.t) (j : Z) (t : Table) :
  j <> EmployeeORM.id emp -> lookup j (written emp t) = lookup j t.
Proof.
  intros Hj. unfold lookup, written. induction t as [|r t IH]; simpl; [reflexivity|].
  destruct (EmployeeORM.id r =? EmployeeORM.id emp) eqn:E.
  - apply Z.eqb_eq in E.
    replace (EmployeeORM.id emp =? j) with false by (symmetry; apply Z.eqb_neq; lia).
    replace (EmployeeORM.id r =? j) with false by (symmetry; apply Z.eqb_neq; lia).
    exact IH.
  - destruct (EmployeeORM.id r =? j); [reflexivity | exact IH].
Qed.

(** C6. After the update of an existing employee, whatever its answer, each
    of name, email, age and department that the body omits, gives as null or
    gives as the empty string or zero is in the stored row what it was
    before, and the rows under other ids are as they were.  When the update
    is answered with a record, that record is the stored row, and a field
    given a truthy value is that value, name and department stripped. *)
Theorem update_writes_truthy_fields_only
    (t : Table) (id : Z) (payload : EmployeeUpdate.t) (emp : EmployeeORM.t) :
  lookup id t = Some emp ->
  exists stored,
    lookup id (snd (PUT_employees id payload t)) = Some stored
    /\ (Py.truthy (EmployeeUpdate.name payload) = false ->
        EmployeeORM.name stored = EmployeeORM.name emp)
    /\ (Py.truthy (EmployeeUpdate.email payload) = false ->
        EmployeeORM.email stored = EmployeeORM.email emp)
    /\ (Py.truthy (EmployeeUpdate.age payload) = false ->
        EmployeeORM.age stored = EmployeeORM.age emp)
    /\ (Py.truthy (EmployeeUpdate.department payload) = false ->
        EmployeeORM.department stored = EmployeeORM.department emp)
    /\ (forall j, j <> id ->
        lookup j (snd (PUT_employees id payload t)) = lookup j t)
    /\ (forall st emp',
          fst (PUT_employees id payload t) = Success st emp' ->
          emp' = stored
          /\ EmployeeORM.id emp' = id
          /\ (forall v, EmployeeUpdate.name payload = Some v ->
                Py.truthy v = true -> EmployeeORM.name emp' = Py.strip v)
          /\ (forall v, EmployeeUpdate.email payload = Some v ->
                Py.truthy v = true -> EmployeeORM.email emp' = v)
          /\ (forall v, EmployeeUpdate.age payload = Some v ->
                Py.truthy v = true -> EmployeeORM.age emp' = v)
          /\ (forall v, EmployeeUpdate.department payload = Some v ->
                Py.truthy v = true -> EmployeeORM.department emp' = Py.strip v)).
Proof.
  intros Hl. rewrite PUT_employees_eq, Hl.
  assert (Hsame : exists stored,
    lookup id t = Some stored
    /\ (Py.truthy (EmployeeUpdate.name payload) = false ->
        EmployeeORM.name stored = EmployeeORM.name emp)
    /\ (Py.truthy (EmployeeUpdate.email payload) = false ->
        EmployeeORM.email stored = EmployeeORM.email emp)
    /\ (Py.truthy (EmployeeUpdate.age payload) = false ->
        EmployeeORM.age stored = EmployeeORM.age emp)
    /\ (Py.truthy (EmployeeUpdate.department payload) = false ->
        EmployeeORM.department stored = EmployeeORM.department emp)
    /\ (forall j, j <> id -> lookup j t = lookup j t))
    by (exists emp; repeat split; auto).
  destruct (Pydantic.validate_update payload); cbn [fst snd];
    [|destruct Hsame as (s & H1 & H2 & H3 & H4 & H5 & H6); exists s;
      repeat split; auto; discriminate].
  destruct (email_in_use payload emp t); cbn [fst snd];
    [destruct Hsame as (s & H1 & H2 & H3 & H4 & H5 & H6); exists s;
     repeat split; auto; discriminate|].
  clear Hsame.
  destruct (lookup_id _ _ _ Hl) as [Hid _].
  assert (Hid' : EmployeeORM.id (assigned payload emp) = id)
    by (now rewrite assigned_id).
  exists (assigned payload emp).
  rewrite assigned_name, assigned_email, assigned_age, assigned_department.
  split; [rewrite <- Hid' at 1; apply lookup_written with (old := emp);
          now rewrite Hid'|].
  split; [destruct (EmployeeUpdate.name payload) as [v|]; [|reflexivity];
          intros H; change (Py.truthy v = false) in H; now rewrite H|].
  split; [destruct (EmployeeUpdate.email payload) as [v|]; [|reflexivity];
          intros H; change (Py.truthy v = false) in H; now rewrite H|].
  split; [destruct (EmployeeUpdate.age payload) as [v|]; [|reflexivity];
          intros H; change (Py.truthy v = false) in H; now rewrite H|].
  split; [destruct (EmployeeUpdate.department payload) as [v|]; [|reflexivity];
          intros H; change (Py.truthy v = false) in H; now rewrite H|].
  split; [intros j Hj; apply lookup_written_other; now rewrite Hid'|].
  intros st emp' Hs. injection Hs as _ <-.
  rewrite assigned_name, assigned_email, assigned_age, assigned_department.
  split; [reflexivity|]. split; [exact Hid'|].
  repeat split; intros v -> H; now rewrite H.
Qed.

Lemma update_writes_truthy_fields_only_witness :
  let row := EmployeeORM.mk 1 "Alice" "alice@example.com" 30 "Engineering" in
  let payload := EmployeeUpdate.mk (Some "") None (Some 0) (Some " Sales ") in
  lookup 1 [row] = Some row
  /\ PUT_employees 1 payload [row]
     = (Success 200 (EmployeeORM.mk 1 "Alice" "alice@example.com" 30 "Sales"),
        [EmployeeORM.mk 1 "Alice" "alice@example.com" 30 "Sales"])
  /\ exists stored,
      lookup 1 (snd (PUT_employees 1 payload [row])) = Some stored
      /\ EmployeeORM.name stored = "Alice"
      /\ EmployeeORM.age stored = 30.
Proof.
  cbv zeta. split; [reflexivity|]. split; [reflexivity|].
  destruct (update_writes_truthy_fields_only
              [EmployeeORM.mk 1 "Alice" "alice@example.com" 30 "Engineering"] 1
              (EmployeeUpdate.mk (Some "") None (Some 0) (Some " Sales "))
              (EmployeeORM.mk 1 "Alice" "alice@example.com" 30 "Engineering")
              eq_refl)
    as (stored & Hl & Hn & _ & Ha & _).
  exists stored. split; [exact Hl|].
  split; [apply Hn; reflexivity | apply Ha; reflexivity].
Defined.

(* ================================================================== *)
(** ** Strings *)

Lemma append_nil_r (s : string) : s ++ "" = s.
Proof. induction s as [|c s IH]; simpl; [reflexivity | now rewrite IH]. Qed.

Lemma append_assoc (a b c : string) : (a ++ b) ++ c = a ++ (b ++ c).
Proof. induction a as [|x a IH]; simpl; [reflexivity | now rewrite IH]. Qed.

Lemma append_snoc (a : string) (c : ascii) (b : string) :
  (a ++ String c "") ++ b = a ++ String c b.
Proof. now rewrite append_assoc. Qed.




(* ================================================================== *)
(** ** LIKE *)










(* ================================================================== *)
(** ** Search *)

Lemma str_truthy_iff (s : string) : Py.truthy s = true <-> s <> "".
Proof.
  unfold Py.truthy, Py.str_truthy. rewrite negb_true_iff. apply String.eqb_neq.
Qed.




(** The two wildcard characters of LIKE keep their meaning inside the search
    text: [_] selects a row in whose name no underscore occurs. *)
Example search_underscore_is_wildcard :
  GET_employees_export (Some "json") None (Some "B_b") [Sample.bob]
  = (Success 200 (JsonBody [Sample.bob]), [Sample.bob])
  /\ GET_employees None (Some "B_b") None None [Sample.bob]
     = (Success 200 [Sample.bob], [Sample.bob])
  /\ has_substring_nocase "B_b" (EmployeeORM.name Sample.bob) = false.
Proof. repeat split. Qed.



(* ================================================================== *)
(** ** The CSV export read back *)

Section CsvRoundTrip.

Import Rfc4180.

Lemma run_app (s : state) (a b : string) :
  run s (a ++ b) =
  match run s a with
  | Some s' => run s' b
  | None => None
  end.
Proof.
  revert s. induction a as [|c a IH]; intros s; simpl; [reflexivity|].
  destruct (step s c); [apply IH | reflexivity].
Qed.

Lemma special_false (c : ascii) :
  Csv.special c = false ->
  (c =? Csv.quotechar)%char = false /\ (c =? Csv.delimiter)%char = false
  /\ (c =? Csv.CR)%char = false /\ (c =? Csv.LF)%char = false.
Proof.
  unfold Csv.special, Csv.lineterminator. cbn [Py.char_in].
  destruct (c =? Csv.quotechar)%char, (c =? Csv.delimiter)%char,
    (c =? Csv.CR)%char, (c =? Csv.LF)%char; simpl; intros H;
    try discriminate H; auto.
Qed.

Lemma step_plain (m : mode) (fld : string) (rec : list string)
    (recs : list (list string)) (c : ascii) :
  open_mode m -> Csv.special c = false ->
  step (mkState m fld rec recs) c
  = Some (mkState InField (fld ++ String c "") rec recs).
Proof.
  intros Hm Hc. destruct (special_false c Hc) as (Hq & Hd & Hcr & Hlf).
  unfold step. cbn [st_mode]. rewrite Hq, Hd, Hcr, Hlf.
  destruct Hm as [-> | [-> | ->]]; reflexivity.
Qed.

(** A field without special characters is read as it stands. *)
Lemma run_plain (f : string) : forall m fld rec recs,
  open_mode m -> Csv.quoted f = false ->
  exists m', open_mode m'
             /\ run (mkState m fld rec recs) f
                = Some (mkState m' (fld ++ f) rec recs).
Proof.
  induction f as [|c f IH]; intros m fld rec recs Hm Hf.
  - exists m. split; [exact Hm|]. simpl. now rewrite append_nil_r.
  - cbn [Csv.quoted] in Hf. apply orb_false_iff in Hf. destruct Hf as [Hc Hf].
    cbn [run]. rewrite step_plain by assumption.
    destruct (IH InField (fld ++ String c "") rec recs) as [m' [Hm' Hrun]];
      [right; now right | exact Hf |].
    exists m'. split; [exact Hm'|]. now rewrite Hrun, append_snoc.
Qed.

Lemma field_data_plain (f : string) :
  Csv.quoted f = false -> Csv.field_data f = f.
Proof.
  induction f as [|c f IH]; simpl; intros Hf; [reflexivity|].
  apply orb_false_iff in Hf. destruct Hf as [Hc Hf].
  destruct (special_false c Hc) as (Hq & _). rewrite Hq. now rewrite IH.
Qed.

(** Inside the quotes the doubled quotes are read back as single ones. *)
Lemma run_field_data (f : string) : forall fld rec recs,
  run (mkState InQuoted fld rec recs) (Csv.field_data f)
  = Some (mkState InQuoted (fld ++ f) rec recs).
Proof.
  induction f as [|c f IH]; intros fld rec recs.
  - simpl. now rewrite append_nil_r.
  - cbn [Csv.field_data]. destruct (c =? Csv.quotechar)%char eqn:Hq.
    + apply Ascii.eqb_eq in Hq. subst c.
      cbn [run]. unfold step at 1. cbn [st_mode]. rewrite Ascii.eqb_refl.
      unfold step at 1. cbn [st_mode]. rewrite Ascii.eqb_refl.
      unfold add_char. cbn [st_field st_record st_records].
      now rewrite IH, append_snoc.
    + cbn [run]. unfold step at 1. cbn [st_mode]. rewrite Hq.
      unfold add_char. cbn [st_field st_record st_records].
      now rewrite IH, append_snoc.
Qed.

Lemma step_open_quote (m : mode) (rec : list string)
    (recs : list (list string)) :
  m = RecordStart \/ m = FieldStart ->
  step (mkState m "" rec recs) Csv.quotechar
  = Some (mkState InQuoted "" rec recs).
Proof. intros [-> | ->]; reflexivity. Qed.

Lemma step_close_quote (f : string) (rec : list string)
    (recs : list (list string)) :
  step (mkState InQuoted f rec recs) Csv.quotechar
  = Some (mkState QuoteSeen f rec recs).
Proof. reflexivity. Qed.

(** One written field, read from the start of a field. *)
Lemma run_join_append (f : string) (m : mode) (rec : list string)
    (recs : list (list string)) :
  m = RecordStart \/ m = FieldStart ->
  exists m', closing_mode m'
             /\ run (mkState m "" rec recs) (Csv.join_append f)
                = Some (mkState m' f rec recs).
Proof.
  intros Hm. unfold Csv.join_append. destruct (Csv.quoted f) eqn:Hf.
  - exists QuoteSeen. split; [now right|].
    cbn [run]. rewrite step_open_quote by exact Hm.
    rewrite run_app, run_field_data. simpl append.
    cbn [run]. now rewrite step_close_quote.
  - rewrite field_data_plain by exact Hf.
    destruct (run_plain f m "" rec recs) as [m' [Hm' Hrun]];
      [destruct Hm as [-> | ->]; [now left | right; now left] | exact Hf |].
    exists m'. split; [now left | exact Hrun].
Qed.

Lemma step_delimiter (m : mode) (f : string) (rec : list string)
    (recs : list (list string)) :
  closing_mode m ->
  step (mkState m f rec recs) Csv.delimiter
  = Some (mkState FieldStart "" (rec ++ [f]) recs).
Proof. intros [[-> | [-> | ->]] | ->]; reflexivity. Qed.

Lemma step_CR (m : mode) (f : string) (rec : list string)
    (recs : list (list string)) :
  closing_mode m ->
  step (mkState m f rec recs) Csv.CR
  = Some (mkState CrSeen "" (rec ++ [f]) recs).
Proof. intros [[-> | [-> | ->]] | ->]; reflexivity. Qed.

(** The joined fields of a record, read from the start of a field: all but
    the last field are in the record and the last can end. *)
Lemma run_join (fs : list string) : forall f m rec recs,
  m = RecordStart \/ m = FieldStart ->
  exists m',
    closing_mode m'
    /\ run (mkState m "" rec recs) (Csv.join (f :: fs))
       = Some (mkState m' (last fs f) (rec ++ removelast (f :: fs)) recs).
Proof.
  induction fs as [|g fs IH]; intros f m rec recs Hm.
  - cbn [Csv.join last removelast]. rewrite app_nil_r.
    now apply run_join_append.
  - change (Csv.join (f :: g :: fs))
      with (Csv.join_append f ++ String Csv.delimiter (Csv.join (g :: fs))).
    rewrite run_app.
    destruct (run_join_append f m rec recs Hm) as [m1 [Hm1 ->]].
    cbn [run]. rewrite step_delimiter by exact Hm1.
    destruct (IH g FieldStart (rec ++ [f])%list recs) as [m' [Hm' ->]];
      [now right|].
    exists m'. split; [exact Hm'|].
    rewrite last_cons.
    change (removelast (f :: g :: fs)) with (f :: removelast (g :: fs)).
    now rewrite <- app_assoc.
Qed.

(** A written record that is not empty is read back as one record. *)
Lemma run_writerow (fs : list string) (recs : list (list string)) :
  fs <> [] ->
  run (mkState RecordStart "" [] recs) (Csv.writerow fs)
  = Some (mkState RecordStart "" [] (recs ++ [fs])).
Proof.
  intros Hfs. destruct fs as [|f fs]; [contradiction|].
  unfold Csv.writerow.
  destruct (Csv.join (f :: fs)) as [|c rest] eqn:Hj.
  - (* only the record of one empty field is written as nothing *)
    assert (Hone : f = "" /\ fs = []).
    { destruct fs as [|g fs].
      - cbn [Csv.join] in Hj. unfold Csv.join_append in Hj.
        destruct (Csv.quoted f); [discriminate Hj|].
        destruct f; [auto | simpl in Hj].
        destruct (_ =? Csv.quotechar)%char; discriminate Hj.
      - change (Csv.join (f :: g :: fs))
          with (Csv.join_append f ++ String Csv.delimiter (Csv.join (g :: fs))) in Hj.
        destruct (Csv.join_append f); discriminate Hj. }
    destruct Hone as [-> ->]. reflexivity.
  - rewrite <- Hj. rewrite run_app.
    destruct (run_join fs f RecordStart [] recs) as [m' [Hm' ->]]; [now left|].
    unfold Csv.lineterminator. cbn [run]. rewrite step_CR by exact Hm'.
    unfold step, end_record. cbn [st_mode st_record st_records].
    rewrite Ascii.eqb_refl, app_nil_l.
    rewrite <- (last_cons f f fs).
    now rewrite <- (app_removelast_last f) by discriminate.
Qed.

End CsvRoundTrip.

Lemma run_csv_text (records : list (list string)) :
  forall recs,
    Forall (fun fs => fs <> []) records ->
    Rfc4180.run (Rfc4180.mkState Rfc4180.RecordStart "" [] recs) (csv_text records)
    = Some (Rfc4180.mkState Rfc4180.RecordStart "" [] (recs ++ records)).
Proof.
  induction records as [|fs records IH]; intros recs Hne.
  - simpl. now rewrite app_nil_r.
  - inversion Hne as [|x l Hfs Hrest]; subst.
    cbn [csv_text]. rewrite run_app, run_writerow by exact Hfs.
    rewrite IH by exact Hrest. now rewrite <- app_assoc.
Qed.

(** Records that are not empty, written by the writer, are read back as they
    were by the reader of RFC 4180. *)
Lemma parse_csv_text (records : list (list string)) :
  Forall (fun fs => fs <> []) records ->
  Rfc4180.parse (csv_text records) = Some records.
Proof.
  intros H. unfold Rfc4180.parse, Rfc4180.init.
  now rewrite run_csv_text by exact H.
Qed.

Lemma export_buffer (rows : list EmployeeORM.t) (buf : string) :
  fold_left (fun buf r => buf ++ Csv.writerow (csv_cells r)) rows buf
  = buf ++ csv_text (map csv_cells rows).
Proof.
  revert buf. induction rows as [|r rows IH]; intros buf; simpl.
  - now rewrite append_nil_r.
  - now rewrite IH, append_assoc.
Qed.

Lemma export_csv_eq (dept search : option string) (t : Table) :
  GET_employees_export (Some "csv") dept search t
  = (Success 200
       (CsvBody (csv_text (csv_header :: map csv_cells (exported dept search t)))),
     t).
Proof.
  unfold GET_employees_export, route, export_employees, bind, Session.all, ret.
  fold (exported dept search). simpl String.eqb. cbv iota. simpl orb. cbv iota.
  now rewrite export_buffer.
Qed.


(** A name with a comma, quotes and a line break, exported and read back. *)
Example export_quotes_special_characters :
  let name := "Bob, " ++ String Csv.quotechar "Jr" ++ String Csv.quotechar ""
              ++ String Csv.LF "II" in
  let row := EmployeeORM.mk 7 name "b@x.io" 40 "R&D" in
  GET_employees_export None None None [row]
  = (Success 200
       (CsvBody
          ("id,name,email,age,department" ++ Csv.lineterminator
           ++ "7," ++ String Csv.quotechar "Bob, "
           ++ String Csv.quotechar (String Csv.quotechar "Jr")
           ++ String Csv.quotechar (String Csv.quotechar (String Csv.LF "II"))
           ++ String Csv.quotechar ",b@x.io,40,R&D" ++ Csv.lineterminator)),
     [row]).
Proof. reflexivity. Qed.

(** The scenario of section 8. *)
Example scenario_alice :
  let '(r1, t1) := POST_employees Sample.alice [] in
  let '(r2, t2) := POST_employees Sample.alice t1 in
  let '(r3, t3) := PUT_employees 1 (Sample.age_only 31) t2 in
  let '(r4, t4) := DELETE_employees 1 t3 in
  r1 = Success 201 (EmployeeORM.mk 1 "Alice" "alice@example.com" 30 "Engineering")
  /\ error_kind r2 = Some DuplicateKey
  /\ r3 = Success 200 (EmployeeORM.mk 1 "Alice" "alice@example.com" 31 "Engineering")
  /\ r4 = Success 200 "Employee deleted successfully"
  /\ t4 = []
  /\ error_kind (fst (PUT_employees 1 (Sample.age_only 31) t4)) = Some NotFound.
Proof. vm_compute. repeat split. Qed.

(** The unused helper [apply_filters] builds the query of [list_employees]. *)
Remark apply_filters_listed (dept search : option string) :
  apply_filters Session.query dept search = listed dept search.
Proof. reflexivity. Qed.

(** Outside [page >= 1] and [1 <= per_page <= 100] the list request is
    answered 422 and no query runs. *)
Lemma list_out_of_bounds_rejected
    (dept search : option string) (page per_page : Z) (t : Table) :
  page < 1 \/ per_page < 1 \/ 100 < per_page ->
  GET_employees dept search (Some page) (Some per_page) t
  = (Failure 422 "Unprocessable Entity", t).
Proof.
  intros H. unfold GET_employees, route.
  destruct (1 <=? page) eqn:E1; [|reflexivity].
  destruct (1 <=? per_page) eqn:E2; [|reflexivity].
  destruct (per_page <=? 100) eqn:E3; [|reflexivity].
  apply Z.leb_le in E1, E2, E3. lia.
Qed.

(* ================================================================== *)
(** ** Further properties of the handlers *)

(** *** Lookups through the writes *)

Lemma lookup_app (j : Z) (t1 t2 : Table) :
  lookup j (t1 ++ t2)%list =
  match lookup j t1 with
  | Some r => Some r
  | None => lookup j t2
  end.
Proof.
  unfold lookup. induction t1 as [|r t1 IH]; simpl; [reflexivity|].
  destruct (EmployeeORM.id r =? j); [reflexivity | exact IH].
Qed.

(** With unique keys a table holding [emp] splits around it, and what is
    filtered or mapped by its key touches that one row. *)
Lemma split_at_row (t : Table) (emp : EmployeeORM.t) :
  NoDup (map EmployeeORM.id t) -> In emp t ->
  exists l1 l2,
    t = (l1 ++ emp :: l2)%list
    /\ (forall r, In r (l1 ++ l2)%list ->
          (EmployeeORM.id r =? EmployeeORM.id emp) = false).
Proof.
  intros Hnd Hin. destruct (in_split _ _ Hin) as [l1 [l2 ->]].
  exists l1, l2. split; [reflexivity|]. intros r Hr. apply Z.eqb_neq. intros Heq.
  assert (Hr' : In r (l1 ++ emp :: l2)%list).
  { apply in_app_iff in Hr. apply in_app_iff. simpl. tauto. }
  assert (Hemp : In emp (l1 ++ emp :: l2)%list) by (apply in_app_iff; simpl; tauto).
  pose proof (same_id_same_row _ r emp Hnd Hr' Hemp Heq) as ->.
  rewrite map_app in Hnd. simpl in Hnd. apply NoDup_remove_2 in Hnd.
  apply Hnd. rewrite <- map_app. now apply in_map.
Qed.

Lemma filter_keep_all {A} (f : A -> bool) (l : list A) :
  (forall a, In a l -> f a = true) -> List.filter f l = l.
Proof.
  induction l as [|a l IH]; simpl; intros H; [reflexivity|].
  rewrite (H a (or_introl eq_refl)). f_equal. apply IH. intros b Hb. apply H. now right.
Qed.

Lemma deleted_split (l1 l2 : Table) (emp : EmployeeORM.t) :
  (forall r, In r (l1 ++ l2)%list ->
     (EmployeeORM.id r =? EmployeeORM.id emp) = false) ->
  List.filter (fun r => negb (EmployeeORM.id r =? EmployeeORM.id emp))
    (l1 ++ emp :: l2)%list
  = (l1 ++ l2)%list.
Proof.
  intros H. rewrite filter_app. simpl. rewrite Z.eqb_refl. simpl.
  rewrite !filter_keep_all; [reflexivity| |];
    intros r Hr; rewrite H; auto; apply in_app_iff; tauto.
Qed.

Lemma written_split (l1 l2 : Table) (emp emp' : EmployeeORM.t) :
  EmployeeORM.id emp' = EmployeeORM.id emp ->
  (forall r, In r (l1 ++ l2)%list ->
     (EmployeeORM.id r =? EmployeeORM.id emp) = false) ->
  written emp' (l1 ++ emp :: l2)%list = (l1 ++ emp' :: l2)%list.
Proof.
  intros Hid H. unfold written. rewrite map_app. simpl.
  rewrite Hid, Z.eqb_refl. f_equal; [|f_equal];
    (rewrite <- map_id; apply map_ext_in; intros r Hr;
     rewrite H; [reflexivity | apply in_app_iff; tauto]).
Qed.

(** *** Delete *)

(** X1. In a table the service has reached, the delete of an id that is
    stored is answered 200 and removes that one row, the rows before and
    after it staying in their order; the delete of an id that is not stored
    is answered 404 and leaves the table. *)
Theorem delete_removes_one_row (id : Z) (t : Table) :
  reachable t ->
  (lookup id t = None ->
   DELETE_employees id t = (Failure 404 "Employee not found", t))
  /\ (forall emp, lookup id t = Some emp ->
      exists l1 l2,
        t = (l1 ++ emp :: l2)%list
        /\ DELETE_employees id t
           = (Success 200 "Employee deleted successfully", (l1 ++ l2)%list)).
Proof.
  intros Hr. destruct (reachable_ok t Hr) as [Hnd _]. split.
  - intros L. now rewrite DELETE_employees_eq, L.
  - intros emp L. destruct (lookup_id _ _ _ L) as [_ Hin].
    destruct (split_at_row t emp Hnd Hin) as [l1 [l2 [Ht Hothers]]].
    exists l1, l2. split; [exact Ht|].
    rewrite DELETE_employees_eq, L. f_equal. rewrite Ht.
    now apply deleted_split.
Qed.

Lemma delete_removes_one_row_witness :
  let t := table_after (serve (Create Sample.alice) []) in
  reachable t
  /\ DELETE_employees 5 t = (Failure 404 "Employee not found", t)
  /\ DELETE_employees 1 t = (Success 200 "Employee deleted successfully", []).
Proof.
  cbv zeta.
  assert (Hr : reachable (table_after (serve (Create Sample.alice) [])))
    by apply reachable_serve, reachable_empty.
  split; [exact Hr|]. split.
  - exact (proj1 (delete_removes_one_row 5 _ Hr) eq_refl).
  - reflexivity.
Defined.

(** *** Create *)

(** X2. A valid create request with an email no row holds is answered 201
    with the row built from the body, name and department stripped, under an
    id that was not stored; a lookup of that id then gives the answered row,
    and the lookups of all other ids give what they gave before. *)
Theorem create_then_lookup (payload : EmployeeCreate.t) (t : Table) :
  Pydantic.validate_create payload = true ->
  ~ email_present (EmployeeCreate.email payload) t ->
  exists emp,
    fst (POST_employees payload t) = Success 201 emp
    /\ EmployeeORM.name emp = Py.strip (EmployeeCreate.name payload)
    /\ EmployeeORM.email emp = EmployeeCreate.email payload
    /\ EmployeeORM.age emp = EmployeeCreate.age payload
    /\ EmployeeORM.department emp = Py.strip (EmployeeCreate.department payload)
    /\ lookup (EmployeeORM.id emp) t = None
    /\ lookup (EmployeeORM.id emp) (snd (POST_employees payload t)) = Some emp
    /\ forall j, j <> EmployeeORM.id emp ->
         lookup j (snd (POST_employees payload t)) = lookup j t.
Proof.
  intros V Hfree. apply find_email_none in Hfree.
  rewrite POST_employees_eq, V, Hfree. cbn [fst snd].
  exists (created payload t). repeat split.
  - apply lookup_next_rowid.
  - rewrite lookup_app. cbn [created EmployeeORM.id].
    rewrite lookup_next_rowid. unfold lookup. simpl. now rewrite Z.eqb_refl.
  - intros j Hj. rewrite lookup_app.
    destruct (lookup j t); [reflexivity|]. unfold lookup. simpl.
    cbn [created EmployeeORM.id] in Hj.
    now replace (Session.next_rowid t =? j) with false
      by (symmetry; apply Z.eqb_neq; lia).
Qed.

Lemma create_then_lookup_witness :
  Pydantic.validate_create Sample.alice = true
  /\ exists emp,
       fst (POST_employees Sample.alice [Sample.bob]) = Success 201 emp
       /\ lookup (EmployeeORM.id emp)
            (snd (POST_employees Sample.alice [Sample.bob])) = Some emp.
Proof.
  split; [reflexivity|].
  assert (Hfree : ~ email_present (EmployeeCreate.email Sample.alice) [Sample.bob]).
  { intros [r [[<-|[]] H]]. discriminate H. }
  destruct (create_then_lookup Sample.alice [Sample.bob] eq_refl Hfree)
    as (emp & H1 & _ & _ & _ & _ & _ & H2 & _).
  exists emp. split; [exact H1 | exact H2].
Defined.

(** *** Invariants of the reachable tables, continued *)

Lemma strip_head (s : string) :
  Py.lstrip s = "" \/ exists c u, Py.lstrip s = String c u /\ Py.isspace c = false.
Proof.
  induction s as [|c s IH]; simpl; [now left|].
  destruct (Py.isspace c) eqn:E; [exact IH|]. right. now exists c, s.
Qed.

Lemma rstrip_idem (s : string) : Py.rstrip (Py.rstrip s) = Py.rstrip s.
Proof.
  induction s as [|c s IH]; [reflexivity|].
  cbn [Py.rstrip]. destruct (Py.rstrip s) as [|d u] eqn:E.
  - destruct (Py.isspace c) eqn:Ec; [reflexivity|].
    cbn [Py.rstrip]. now rewrite Ec.
  - change (Py.rstrip (String c (String d u)))
      with (match Py.rstrip (String d u) with
            | EmptyString =>
                if Py.isspace c then EmptyString else String c EmptyString
            | String x y => String c (String x y)
            end).
    now rewrite IH.
Qed.

Lemma rstrip_keeps_head (c : ascii) (u : string) :
  Py.isspace c = false -> exists v, Py.rstrip (String c u) = String c v.
Proof.
  intros Hc. cbn [Py.rstrip]. destruct (Py.rstrip u) as [|d w].
  - rewrite Hc. now exists "".
  - now exists (String d w).
Qed.

(** [strip()] applied twice is [strip()] applied once. *)
Lemma strip_idem (s : string) : Py.strip (Py.strip s) = Py.strip s.
Proof.
  unfold Py.strip. destruct (strip_head s) as [-> | [c [u [-> Hc]]]].
  - reflexivity.
  - destruct (rstrip_keeps_head c u Hc) as [v Hv]. rewrite Hv.
    cbn [Py.lstrip]. rewrite Hc. rewrite <- Hv. apply rstrip_idem.
Qed.

Lemma StronglySorted_snoc (l : list Z) (x : Z) :
  StronglySorted Z.lt l -> (forall y, In y l -> y < x) ->
  StronglySorted Z.lt (l ++ [x]).
Proof.
  induction l as [|a l IH]; simpl; intros Hs Hx.
  - constructor; constructor.
  - apply StronglySorted_inv in Hs. destruct Hs as [Hs Ha]. constructor.
    + apply IH; auto.
    + apply Forall_app. split; [exact Ha|]. constructor; [|constructor].
      apply Hx. now left.
Qed.

Lemma StronglySorted_map_filter {A} (g : A -> Z) (f : A -> bool) (l : list A) :
  StronglySorted Z.lt (map g l) -> StronglySorted Z.lt (map g (List.filter f l)).
Proof.
  induction l as [|a l IH]; simpl; intros Hs; [constructor|].
  apply StronglySorted_inv in Hs. destruct Hs as [Hs Ha].
  destruct (f a); simpl; [|auto]. constructor; [auto|].
  rewrite Forall_forall in *. intros y Hy. apply Ha.
  apply in_map_iff in Hy. destruct Hy as [b [<- Hb]].
  apply filter_In in Hb. apply in_map. tauto.
Qed.

Lemma StronglySorted_map_skipn {A} (g : A -> Z) (n : nat) (l : list A) :
  StronglySorted Z.lt (map g l) -> StronglySorted Z.lt (map g (skipn n l)).
Proof.
  revert l. induction n as [|n IH]; intros l Hs; [exact Hs|].
  destruct l as [|a l]; [exact Hs|]. simpl.
  apply IH. now apply StronglySorted_inv in Hs.
Qed.

Lemma StronglySorted_map_firstn {A} (g : A -> Z) (n : nat) (l : list A) :
  StronglySorted Z.lt (map g l) -> StronglySorted Z.lt (map g (firstn n l)).
Proof.
  revert l. induction n as [|n IH]; intros l Hs; [constructor|].
  destruct l as [|a l]; [constructor|]. simpl.
  apply StronglySorted_inv in Hs. destruct Hs as [Hs Ha].
  constructor; [auto|]. rewrite Forall_forall in *. intros y Hy. apply Ha.
  apply in_map_iff in Hy. destruct Hy as [b [<- Hb]].
  apply in_map. rewrite <- (firstn_skipn n l). apply in_or_app. now left.
Qed.

Lemma NoDup_insert {A} (y : A) (a b : list A) :
  NoDup (a ++ b) -> ~ In y (a ++ b) -> NoDup (a ++ y :: b).
Proof.
  induction a as [|x a IH]; simpl; intros Hnd Hy.
  - now constructor.
  - inversion Hnd as [|z l Hx Hl]; subst. constructor.
    + rewrite in_app_iff in *. simpl. intros [H|[H|H]]; subst; tauto.
    + apply IH; tauto.
Qed.

Lemma email_in_use_false (payload : EmployeeUpdate.t) (emp : EmployeeORM.t)
    (t : Table) :
  email_in_use payload emp t = false ->
  EmployeeORM.email (assigned payload emp) = EmployeeORM.email emp
  \/ ~ email_present (EmployeeORM.email (assigned payload emp)) t.
Proof.
  intros H. rewrite assigned_email. unfold email_in_use in H.
  destruct (EmployeeUpdate.email payload) as [e|]; [|now left].
  destruct (Py.truthy e); [|now left]. simpl in H.
  destruct (e =? EmployeeORM.email emp)%string eqn:E; simpl in H.
  - left. now apply String.eqb_eq.
  - right. destruct (find _ t) eqn:F; [discriminate|].
    now apply find_email_none.
Qed.

(** What every reachable table keeps: keys going up, no email twice, names
    and departments trimmed. *)
Lemma table_keeps (rq : Request) (t : Table) :
  ids_ascending t /\ NoDup (map EmployeeORM.email t) /\ Forall trimmed t ->
  ids_ascending (table_after (serve rq t))
  /\ NoDup (map EmployeeORM.email (table_after (serve rq t)))
  /\ Forall trimmed (table_after (serve rq t)).
Proof.
  unfold ids_ascending. intros (Hs & He & Ht).
  destruct rq as [p | i p | i]; unfold serve, served; simpl.
  - rewrite POST_employees_eq.
    destruct (Pydantic.validate_create p); simpl; [|tauto].
    destruct (find _ t) eqn:F; simpl; [tauto|].
    rewrite !map_app. simpl. repeat split.
    + apply StronglySorted_snoc; [exact Hs|]. intros y Hy.
      apply in_map_iff in Hy. destruct Hy as [r [<- Hr]].
      now apply next_rowid_above.
    + apply NoDup_snoc; [exact He|]. intros Hin.
      apply in_map_iff in Hin. destruct Hin as [r [Heq Hr]].
      apply find_email_none in F. apply F. now exists r.
    + apply Forall_app. split; [exact Ht|]. constructor; [|constructor].
      split; simpl; apply strip_idem.
  - rewrite PUT_employees_eq.
    destruct (Pydantic.validate_update p); simpl; [|tauto].
    destruct (lookup i t) as [emp|] eqn:L; simpl; [|tauto].
    destruct (email_in_use p emp t) eqn:U; simpl; [tauto|].
    destruct (lookup_id _ _ _ L) as [Hid Hin].
    assert (Hnd : NoDup (map EmployeeORM.id t)).
    { clear - Hs. induction (map EmployeeORM.id t) as [|a l IH]; [constructor|].
      apply StronglySorted_inv in Hs. destruct Hs as [Hs Ha].
      constructor; [|auto]. intros Hin. rewrite Forall_forall in Ha.
      specialize (Ha a Hin). lia. }
    destruct (split_at_row t emp Hnd Hin) as [l1 [l2 [Hsplit Hothers]]].
    rewrite map_id_written. split; [exact Hs|].
    rewrite Hsplit at 1 2.
    rewrite (written_split l1 l2 emp (assigned p emp) (assigned_id p emp) Hothers).
    split.
    + rewrite map_app. simpl.
      rewrite Hsplit, map_app in He. simpl in He.
      destruct (email_in_use_false p emp t U) as [Hsame | Hfresh].
      * now rewrite Hsame.
      * apply NoDup_insert; [eapply NoDup_remove_1; exact He|].
        intros Hin'. apply Hfresh. rewrite <- map_app in Hin'.
        apply in_map_iff in Hin'. destruct Hin' as [r [Hr Hrin]].
        exists r. split; [|exact Hr]. rewrite Hsplit.
        apply in_app_iff in Hrin. apply in_app_iff. simpl. tauto.
    + rewrite Hsplit in Ht. apply Forall_app in Ht. destruct Ht as [Ht1 Ht2].
      inversion Ht2 as [|x l [Hn Hd] Ht2']; subst.
      apply Forall_app. split; [exact Ht1|]. constructor; [|exact Ht2'].
      unfold trimmed. rewrite assigned_name, assigned_department.
      split.
      * destruct (EmployeeUpdate.name p) as [v|]; [|exact Hn].
        destruct (Py.truthy v); [apply strip_idem | exact Hn].
      * destruct (EmployeeUpdate.department p) as [v|]; [|exact Hd].
        destruct (Py.truthy v); [apply strip_idem | exact Hd].
  - rewrite DELETE_employees_eq.
    destruct (lookup i t) as [emp|]; simpl; [|tauto]. repeat split.
    + now apply StronglySorted_map_filter.
    + now apply NoDup_map_filter.
    + rewrite Forall_forall in *. intros r Hr. apply filter_In in Hr. apply Ht, Hr.
Qed.

Lemma reachable_keeps (t : Table) :
  reachable t ->
  ids_ascending t /\ NoDup (map EmployeeORM.email t) /\ Forall trimmed t.
Proof.
  induction 1 as [|rq t _ IH].
  - repeat split; constructor.
  - now apply table_keeps.
Qed.

Lemma same_email_same_row_in (t : Table) (r1 r2 : EmployeeORM.t) :
  NoDup (map EmployeeORM.email t) -> In r1 t -> In r2 t ->
  EmployeeORM.email r1 = EmployeeORM.email r2 -> r1 = r2.
Proof.
  induction t as [|a t IH]; simpl; intros Hnd H1 H2 Heq; [destruct H1|].
  inversion Hnd as [|x k Hnin Hnd']; subst.
  destruct H1 as [->|H1], H2 as [->|H2]; auto.
  - exfalso. apply Hnin. rewrite Heq. now apply in_map.
  - exfalso. apply Hnin. rewrite <- Heq. now apply in_map.
Qed.

(** X3. In every table the service reaches, no two rows hold the same email
    and no two rows the same id: rows with equal emails, or with equal ids,
    are one row. *)
Theorem reachable_emails_and_ids_unique (t : Table) :
  reachable t ->
  NoDup (map EmployeeORM.email t)
  /\ NoDup (map EmployeeORM.id t)
  /\ forall r1 r2, In r1 t -> In r2 t ->
       EmployeeORM.email r1 = EmployeeORM.email r2
       \/ EmployeeORM.id r1 = EmployeeORM.id r2 ->
       r1 = r2.
Proof.
  intros Hr. destruct (reachable_keeps t Hr) as (_ & He & _).
  destruct (reachable_ok t Hr) as [Hi _].
  split; [exact He|]. split; [exact Hi|].
  intros r1 r2 H1 H2 [H|H].
  - now apply (same_email_same_row_in t).
  - now apply (same_id_same_row t).
Qed.

Lemma reachable_emails_and_ids_unique_witness :
  let t := table_after (serve (Create Sample.alice')
             (table_after (serve (Create Sample.alice) []))) in
  reachable t /\ NoDup (map EmployeeORM.email t) /\ List.length t = 1%nat.
Proof.
  cbv zeta.
  assert (Hr : reachable (table_after (serve (Create Sample.alice')
                 (table_after (serve (Create Sample.alice) [])))))
    by apply reachable_serve, reachable_serve, reachable_empty.
  split; [exact Hr|]. split; [|reflexivity].
  exact (proj1 (reachable_emails_and_ids_unique _ Hr)).
Defined.

(** X4. In every table the service reaches, the name and the department of
    every row are trimmed: [strip()] leaves them as they are, because create
    and update store only stripped values. *)
Theorem reachable_rows_trimmed (t : Table) (r : EmployeeORM.t) :
  reachable t -> In r t ->
  Py.strip (EmployeeORM.name r) = EmployeeORM.name r
  /\ Py.strip (EmployeeORM.department r) = EmployeeORM.department r.
Proof.
  intros Hr Hin. destruct (reachable_keeps t Hr) as (_ & _ & Ht).
  rewrite Forall_forall in Ht. exact (Ht r Hin).
Qed.

Lemma reachable_rows_trimmed_witness :
  let p := EmployeeCreate.mk "  Dan  " "dan@example.com" 33 " Ops " in
  let t := table_after (serve (Create p) []) in
  reachable t
  /\ In (EmployeeORM.mk 1 "Dan" "dan@example.com" 33 "Ops") t
  /\ Py.strip "Dan" = "Dan".
Proof.
  cbv zeta.
  assert (Hr : reachable (table_after (serve
                 (Create (EmployeeCreate.mk "  Dan  " "dan@example.com" 33 " Ops ")) [])))
    by apply reachable_serve, reachable_empty.
  assert (Hin : In (EmployeeORM.mk 1 "Dan" "dan@example.com" 33 "Ops")
                  (table_after (serve
                     (Create (EmployeeCreate.mk "  Dan  " "dan@example.com" 33 " Ops ")) [])))
    by (left; reflexivity).
  split; [exact Hr|]. split; [exact Hin|].
  exact (proj1 (reachable_rows_trimmed _ _ Hr Hin)).
Defined.

(** *** Delete, then create *)

(** X5. In a table the service has reached, once the row of an employee is
    deleted its email is free again: a valid create request carrying that
    email is then answered 201. *)
Theorem delete_frees_email
    (t : Table) (id : Z) (emp : EmployeeORM.t) (payload : EmployeeCreate.t) :
  reachable t ->
  lookup id t = Some emp ->
  Pydantic.validate_create payload = true ->
  EmployeeCreate.email payload = EmployeeORM.email emp ->
  ~ email_present (EmployeeORM.email emp) (snd (DELETE_employees id t))
  /\ status (fst (POST_employees payload (snd (DELETE_employees id t)))) = 201.
Proof.
  intros Hr L V He.
  destruct (reachable_keeps t Hr) as (_ & Hem & _).
  destruct (lookup_id _ _ _ L) as [Hid Hin].
  assert (Hfree : ~ email_present (EmployeeORM.email emp)
                    (snd (DELETE_employees id t))).
  { rewrite DELETE_employees_eq, L. cbn [snd]. intros [r [Hrin Hre]].
    apply filter_In in Hrin. destruct Hrin as [Hrin Hne].
    assert (r = emp) by (now apply (same_email_same_row_in t)). subst r.
    rewrite Z.eqb_refl in Hne. discriminate Hne. }
  split; [exact Hfree|].
  rewrite POST_employees_eq, V, He.
  apply find_email_none in Hfree. now rewrite Hfree.
Qed.

Lemma delete_frees_email_witness :
  let t := table_after (serve (Create Sample.alice) []) in
  reachable t
  /\ lookup 1 t = Some (EmployeeORM.mk 1 "Alice" "alice@example.com" 30 "Engineering")
  /\ status (fst (POST_employees Sample.alice' (snd (DELETE_employees 1 t)))) = 201.
Proof.
  cbv zeta.
  assert (Hr : reachable (table_after (serve (Create Sample.alice) [])))
    by apply reachable_serve, reachable_empty.
  split; [exact Hr|]. split; [reflexivity|].
  exact (proj2 (delete_frees_email _ 1
                  (EmployeeORM.mk 1 "Alice" "alice@example.com" 30 "Engineering")
                  Sample.alice' Hr eq_refl eq_refl eq_refl)).
Defined.

(** *** Update *)

Lemma assigned_twice (payload : EmployeeUpdate.t) (emp : EmployeeORM.t) :
  assigned payload (assigned payload emp) = assigned payload emp.
Proof.
  unfold assigned, assign_if.
  destruct payload as [[n|] [e|] [a|] [d|]]; destruct emp; simpl;
    repeat match goal with |- context [if ?b then _ else _] => destruct b end;
    reflexivity.
Qed.

Lemma written_twice (emp : EmployeeORM.t) (t : Table) :
  written emp (written emp t) = written emp t.
Proof.
  unfold written. rewrite map_map. apply map_ext. intros r.
  destruct (EmployeeORM.id r =? EmployeeORM.id emp) eqn:E; [|now rewrite E].
  now rewrite Z.eqb_refl.
Qed.

(** X6. An update that was answered with a record can be sent again: the
    second request gets the same answer and leaves the table as the first
    left it. *)
Theorem update_again_changes_nothing
    (t : Table) (id st : Z) (payload : EmployeeUpdate.t) (emp' : EmployeeORM.t) :
  fst (PUT_employees id payload t) = Success st emp' ->
  PUT_employees id payload (snd (PUT_employees id payload t))
  = PUT_employees id payload t.
Proof.
  rewrite PUT_employees_eq.
  destruct (Pydantic.validate_update payload) eqn:V; [|discriminate].
  destruct (lookup id t) as [emp|] eqn:L; [|discriminate].
  destruct (email_in_use payload emp t) eqn:U; [discriminate|].
  intros _. cbn [snd]. rewrite PUT_employees_eq, V.
  destruct (lookup_id _ _ _ L) as [Hid _].
  assert (L' : lookup id (written (assigned payload emp) t)
               = Some (assigned payload emp)).
  { rewrite <- Hid. rewrite <- (assigned_id payload emp).
    apply lookup_written with (old := emp). now rewrite assigned_id, Hid. }
  rewrite L'.
  assert (U' : email_in_use payload (assigned payload emp)
                 (written (assigned payload emp) t) = false).
  { unfold email_in_use. rewrite assigned_email.
    destruct (EmployeeUpdate.email payload) as [e|]; [|reflexivity].
    destruct (Py.truthy e); [|reflexivity].
    now rewrite String.eqb_refl. }
  now rewrite U', assigned_twice, written_twice.
Qed.

Lemma update_again_changes_nothing_witness :
  let row := EmployeeORM.mk 1 "Alice" "alice@example.com" 30 "Engineering" in
  let payload := EmployeeUpdate.mk (Some " Al ") (Some "al@example.com") (Some 31) None in
  fst (PUT_employees 1 payload [row])
  = Success 200 (EmployeeORM.mk 1 "Al" "al@example.com" 31 "Engineering")
  /\ PUT_employees 1 payload (snd (PUT_employees 1 payload [row]))
     = PUT_employees 1 payload [row].
Proof.
  cbv zeta. split; [reflexivity|].
  apply (update_again_changes_nothing _ 1 200 _
           (EmployeeORM.mk 1 "Al" "al@example.com" 31 "Engineering")).
  reflexivity.
Defined.

(** *** List and export *)

Lemma page_rows_eq (dept search : option string) (page per_page : Z) (t : Table) :
  1 <= page -> 1 <= per_page <= 100 ->
  page_rows dept search page per_page t
  = firstn (Z.to_nat per_page)
      (skipn (Z.to_nat ((page - 1) * per_page)) (listed dept search t)).
Proof.
  intros Hp Hpp. unfold page_rows. now rewrite GET_employees_eq by assumption.
Qed.

Lemma pages_upto_eq (dept search : option string) (per_page : Z) (k : nat)
    (t : Table) :
  1 <= per_page <= 100 ->
  pages_upto dept search per_page k t
  = firstn (k * Z.to_nat per_page) (listed dept search t).
Proof.
  intros Hpp. induction k as [|k IH]; [reflexivity|].
  cbn [pages_upto]. rewrite IH, page_rows_eq by lia.
  replace (Z.to_nat ((Z.of_nat (S k) - 1) * per_page))
    with (k * Z.to_nat per_page)%nat by nia.
  rewrite firstn_then_next. f_equal. lia.
Qed.

(** X7. For [per_page] from 1 to 100, the pages 1 to [k] of the list, one
    after the other, are the first [k * per_page] filtered records; once
    [k * per_page] reaches their number the pages are all of them, each
    once and in order; and a page past the end is answered 200 with no
    record. *)
Theorem paging_covers_every_record
    (dept search : option string) (per_page : Z) (k : nat) (t : Table) :
  1 <= per_page <= 100 ->
  pages_upto dept search per_page k t
  = firstn (k * Z.to_nat per_page) (listed dept search t)
  /\ ((List.length (listed dept search t) <= k * Z.to_nat per_page)%nat ->
      pages_upto dept search per_page k t = listed dept search t
      /\ GET_employees dept search (Some (Z.of_nat k + 1)) (Some per_page) t
         = (Success 200 [], t)).
Proof.
  intros Hpp. split; [now apply pages_upto_eq|]. intros Hlen. split.
  - rewrite pages_upto_eq by exact Hpp. now apply firstn_all2.
  - rewrite GET_employees_eq by lia.
    replace (Z.to_nat ((Z.of_nat k + 1 - 1) * per_page))
      with (k * Z.to_nat per_page)%nat by nia.
    rewrite skipn_all2 by exact Hlen. now rewrite firstn_nil.
Qed.

Lemma paging_covers_every_record_witness :
  1 <= 1 <= 100
  /\ pages_upto None None 1 2 [Sample.bob; Sample.carol] = [Sample.bob; Sample.carol]
  /\ GET_employees None None (Some 3) (Some 1) [Sample.bob; Sample.carol]
     = (Success 200 [], [Sample.bob; Sample.carol]).
Proof.
  split; [lia|].
  assert (Hpp : 1 <= 1 <= 100) by lia.
  assert (Hlen : (List.length (listed None None [Sample.bob; Sample.carol])
                  <= 2 * Z.to_nat 1)%nat) by (simpl; lia).
  exact (proj2 (paging_covers_every_record None None 1 2
                  [Sample.bob; Sample.carol] Hpp) Hlen).
Defined.

Lemma filter_if_rows (x : option string)
    (cond : string -> EmployeeORM.t -> bool) (q : Session.Query) (t : Table)
    (r : EmployeeORM.t) :
  In r (filter_if x cond q t) ->
  In r (q t) /\ forall v, x = Some v -> v <> "" -> cond v r = true.
Proof.
  unfold filter_if. destruct x as [v|].
  - destruct (Py.truthy v) eqn:Tv.
    + unfold Session.filter. intros H. apply filter_In in H. destruct H as [H1 H2].
      split; [exact H1|]. intros w Hw _. now injection Hw as <-.
    + intros H. split; [exact H|]. intros w Hw Hne. injection Hw as <-.
      apply str_truthy_iff in Hne. congruence.
  - intros H. split; [exact H|]. intros w Hw. discriminate Hw.
Qed.

Lemma filter_if_sorted (x : option string)
    (cond : string -> EmployeeORM.t -> bool) (q : Session.Query) (t : Table) :
  ids_ascending (q t) -> ids_ascending (filter_if x cond q t).
Proof.
  unfold filter_if, ids_ascending. destruct x as [v|]; [|auto].
  destruct (Py.truthy v); [|auto]. unfold Session.filter.
  apply StronglySorted_map_filter.
Qed.

(** X8. In a table the service has reached, every list request within the
    bounds is answered with stored rows in strictly ascending order of id,
    so none twice, each in the department asked for when one is given and
    each matching the search pattern when one is given. *)
Theorem list_answers_stored_rows_in_id_order
    (dept search : option string) (page per_page : Z) (t : Table) :
  reachable t -> 1 <= page -> 1 <= per_page <= 100 ->
  exists l,
    GET_employees dept search (Some page) (Some per_page) t = (Success 200 l, t)
    /\ ids_ascending l
    /\ NoDup l
    /\ forall r, In r l ->
         In r t
         /\ (forall d, dept = Some d -> d <> "" -> EmployeeORM.department r = d)
         /\ (forall s, search = Some s -> s <> "" -> name_ilike s r = true).
Proof.
  intros Hr Hp Hpp. destruct (reachable_keeps t Hr) as (Hs & _ & _).
  eexists. split; [now apply GET_employees_eq|].
  assert (Hsorted : ids_ascending
            (firstn (Z.to_nat per_page)
               (skipn (Z.to_nat ((page - 1) * per_page)) (listed dept search t)))).
  { unfold ids_ascending. apply StronglySorted_map_firstn, StronglySorted_map_skipn.
    unfold listed. apply filter_if_sorted, filter_if_sorted. exact Hs. }
  split; [exact Hsorted|]. split.
  - apply (NoDup_map_inv EmployeeORM.id). unfold ids_ascending in Hsorted.
    induction (map EmployeeORM.id _) as [|a l IH]; [constructor|].
    apply StronglySorted_inv in Hsorted. destruct Hsorted as [Hs' Ha].
    constructor; [|auto]. intros Hin. rewrite Forall_forall in Ha.
    specialize (Ha a Hin). lia.
  - intros r Hin.
    assert (Hl : In r (listed dept search t)).
    { rewrite <- (firstn_skipn (Z.to_nat ((page - 1) * per_page))).
      apply in_or_app. right.
      rewrite <- (firstn_skipn (Z.to_nat per_page) (skipn _ _)).
      apply in_or_app. now left. }
    unfold listed in Hl. apply filter_if_rows in Hl. destruct Hl as [Hl Hsearch].
    apply filter_if_rows in Hl. destruct Hl as [Hl Hdept].
    split; [exact Hl|]. split.
    + intros d Hd Hne. specialize (Hdept d Hd Hne).
      now apply String.eqb_eq in Hdept.
    + exact Hsearch.
Qed.

Lemma list_answers_stored_rows_in_id_order_witness :
  let t := table_after (serve (Create Sample.alice) []) in
  reachable t /\ 1 <= 1 /\ 1 <= 10 <= 100
  /\ exists l,
       GET_employees (Some "Engineering") None (Some 1) (Some 10) t = (Success 200 l, t)
       /\ NoDup l.
Proof.
  cbv zeta.
  assert (Hr : reachable (table_after (serve (Create Sample.alice) [])))
    by apply reachable_serve, reachable_empty.
  split; [exact Hr|]. split; [lia|]. split; [lia|].
  destruct (list_answers_stored_rows_in_id_order (Some "Engineering") None 1 10 _ Hr)
    as (l & H1 & _ & H2 & _); [lia | lia |].
  exists l. split; [exact H1 | exact H2].
Defined.

(** *** The CSV export determines the records *)

Lemma to_int_not_nil (z : Z) :
  Z.to_int z <> Decimal.Pos Decimal.Nil /\ Z.to_int z <> Decimal.Neg Decimal.Nil.
Proof.
  rewrite <- (DecimalZ.of_to z) at 1 2. rewrite DecimalZ.to_of.
  destruct (Z.to_int z) as [d|d]; simpl.
  - unfold Decimal.unorm. destruct (Decimal.nzhead d); split; discriminate.
  - destruct (Decimal.nzhead d); split; discriminate.
Qed.

(** [str(n)] tells the integers apart. *)
Lemma str_of_int_inj (a b : Z) : Py.str_of_int a = Py.str_of_int b -> a = b.
Proof.
  unfold Py.str_of_int. intros H.
  destruct (to_int_not_nil a) as [Ha1 Ha2]. destruct (to_int_not_nil b) as [Hb1 Hb2].
  pose proof (NilZero.isi (Z.to_int a) Ha1 Ha2) as Ia.
  pose proof (NilZero.isi (Z.to_int b) Hb1 Hb2) as Ib.
  rewrite H in Ia. rewrite Ia in Ib. injection Ib as Ib.
  rewrite <- (DecimalZ.of_to a), <- (DecimalZ.of_to b). now rewrite Ib.
Qed.

Lemma csv_cells_inj (r1 r2 : EmployeeORM.t) :
  csv_cells r1 = csv_cells r2 -> r1 = r2.
Proof.
  destruct r1, r2. unfold csv_cells. simpl. intros H.
  injection H as Hi Hn He Ha Hd.
  apply str_of_int_inj in Hi, Ha. now subst.
Qed.

Lemma map_csv_cells_inj (l1 l2 : list EmployeeORM.t) :
  map csv_cells l1 = map csv_cells l2 -> l1 = l2.
Proof.
  revert l2. induction l1 as [|r1 l1 IH]; intros [|r2 l2] H;
    try discriminate H; [reflexivity|].
  pose proof (f_equal (@List.hd _ []) H) as Hr.
  pose proof (f_equal (@List.tl _) H) as Hl.
  cbn [map List.hd List.tl] in Hr, Hl.
  f_equal; [now apply csv_cells_inj | now apply IH].
Qed.

(** X9. The CSV export loses nothing: when two exports, of any tables and
    filters, answer the same CSV payload, the records they wrote are the
    same, field for field and in the same order. *)
Theorem export_csv_determines_records
    (dept1 search1 dept2 search2 : option string) (t1 t2 : Table)
    (payload : string) :
  fst (GET_employees_export (Some "csv") dept1 search1 t1)
  = Success 200 (CsvBody payload) ->
  fst (GET_employees_export (Some "csv") dept2 search2 t2)
  = Success 200 (CsvBody payload) ->
  exported dept1 search1 t1 = exported dept2 search2 t2.
Proof.
  rewrite !export_csv_eq. cbn [fst].
  remember (csv_text (csv_header :: map csv_cells (exported dept1 search1 t1)))
    as x1 eqn:E1.
  remember (csv_text (csv_header :: map csv_cells (exported dept2 search2 t2)))
    as x2 eqn:E2.
  intros H1 H2. injection H1 as H1. injection H2 as H2. subst x1 payload.
  assert (Hne : forall l : list EmployeeORM.t,
             Forall (fun fs : list string => fs <> [])
               (csv_header :: map csv_cells l)).
  { intros l. constructor; [discriminate|]. apply Forall_forall.
    intros fs Hin. apply in_map_iff in Hin. destruct Hin as [r [<- _]].
    discriminate. }
  pose proof (parse_csv_text _ (Hne (exported dept1 search1 t1))) as P1.
  pose proof (parse_csv_text _ (Hne (exported dept2 search2 t2))) as P2.
  rewrite <- E2, H2 in P2. rewrite P1 in P2.
  apply map_csv_cells_inj.
  pose proof (f_equal (fun o => match o with Some (_ :: l) => l | _ => [] end) P2)
    as P. exact P.
Qed.

Lemma export_csv_determines_records_witness :
  exported None (Some "bob") [Sample.bob; Sample.carol]
  = exported (Some "Sales") None [Sample.bob].
Proof.
  apply (export_csv_determines_records None (Some "bob") (Some "Sales") None
           [Sample.bob; Sample.carol] [Sample.bob]
           (csv_text [csv_header; csv_cells Sample.bob]));
    reflexivity.
Defined.

